(** * Fleet lead scoring engine: a shallow embedding of
    [scripts/fleet_lead_scorer.py] and the properties of its scoring core.

    Conventions of the embedding.
    - Python [int] sub-scores and totals are [Z].
    - Latitude, longitude, population density and elevation thresholds are
      compared, never computed with: a finite Python [float] (or [int]) is
      modelled by the rational number it denotes, type [Q], and [<], [>]
      are the exact order on rationals.  Decimal literals of the static
      table stand for the nearest binary64 value, which lies on the same
      side of every integer threshold used by the heuristics.
    - The great-circle distance to the nearest coastal reference point is
      trigonometry on floats; the engine only compares it with 20 and 50,
      so it is a parameter of the development
      ([get_nearest_coast_distance]).
    - [dict]s are [gmap]s, [set]s are [gset]s, [str] is [string]. *)

From Stdlib Require Import ZArith QArith Ascii String.
From stdpp Require Import base option list sorting gmap sets strings.

Local Open Scope string_scope.
Local Open Scope list_scope.
Local Open Scope Z_scope.

(** ** Numbers *)

(** [x < y] on the rationals standing for Python floats. *)
Definition Qltb (x y : Q) : bool :=
  (Qnum x * QDen y <? Qnum y * QDen x)%Z.

(** ** Static data: heuristic lookup tables *)

Definition SALT_BELT_STATES : gset string :=
  list_to_set
    ["CT"; "DC"; "DE"; "IL"; "IN"; "IA"; "KY"; "ME"; "MD"; "MA";
     "MI"; "MN"; "MO"; "NH"; "NJ"; "NY"; "OH"; "PA"; "RI"; "VT";
     "VA"; "WV"; "WI"].

Definition COASTAL_STATES : gset string :=
  list_to_set
    ["CA"; "OR"; "WA"; "TX"; "LA"; "MS"; "AL"; "FL"; "GA"; "SC";
     "NC"; "VA"; "MD"; "DE"; "NJ"; "NY"; "CT"; "RI"; "MA"; "NH"; "ME"].

Definition MOUNTAINOUS_STATES : gset string :=
  list_to_set
    ["CO"; "WV"; "UT"; "NV"; "ID"; "MT"; "WA"; "OR"; "CA"; "AZ"; "NM"; "WY"].

Definition HIGH_ELEVATION_PREFIXES : gmap string Z :=
  list_to_map
    [("800", 5280); ("801", 5500); ("802", 6000); ("803", 7000);
     ("804", 8000); ("805", 5500); ("840", 4300); ("841", 4500);
     ("871", 5300); ("872", 6000); ("891", 4500); ("590", 3500);
     ("591", 4000); ("820", 6000); ("821", 6500); ("822", 7000);
     ("831", 4500); ("832", 5000); ("833", 5500)].

Definition HEAT_RISK_LATITUDE : Q := 35.
Definition COLD_RISK_LATITUDE : Q := 42.

(** ** Data classes *)

Record RiskFactors := mkRiskFactors {
  corrosion : Z;
  coastal : Z;
  urban_wear : Z;
  rural_road : Z;
  terrain : Z;
  heat : Z;
  cold : Z
}.

Record FleetLeadScore := mkFleetLeadScore {
  zip_code : string;
  city : string;
  state : string;
  latitude : Q;
  longitude : Q;
  population_density : Q;
  total_severity_score : Z;
  risk_factors : RiskFactors;
  primary_risk : string;
  secondary_risks : list string;
  risk_bucket : string;
  recommended_upsell : list string;
  lead_priority : string
}.

(** The dictionary [get_zip_data] returns. *)
Record ZipData := mkZipData {
  zd_city : string;
  zd_state : string;
  zd_lat : Q;
  zd_lon : Q;
  zd_pop_density : Q
}.

(** ** Helper functions *)

(** [zip_code[:3]]: the first three characters, fewer when the string is
    shorter. *)
Definition prefix3 (zip_code : string) : string := substring 0 3 zip_code.

Definition state_elevations : gmap string Z :=
  list_to_map
    [("CO", 5500); ("UT", 4500); ("WY", 5500); ("NM", 5000); ("NV", 4000);
     ("AZ", 3500); ("ID", 4000); ("MT", 3500); ("WA", 1500); ("OR", 1500);
     ("CA", 1000); ("WV", 1500)].

Definition get_elevation_estimate (zip_code state : string) : Z :=
  let prefix := prefix3 zip_code in
  match HIGH_ELEVATION_PREFIXES !! prefix with
  | Some e => e
  | None => default 500 (state_elevations !! state)
  end.

(** ** Mock data (fallback when the lookup service is not available) *)

Definition MOCK_ZIP_DATA : gmap string ZipData :=
  list_to_map
    [("60601", mkZipData "Chicago" "IL" 41.8819 (-87.6278) 12000);
     ("10001", mkZipData "New York" "NY" 40.7484 (-73.9967) 27000);
     ("90210", mkZipData "Beverly Hills" "CA" 34.0901 (-118.4065) 5200);
     ("80202", mkZipData "Denver" "CO" 39.7541 (-104.9927) 4500);
     ("98101", mkZipData "Seattle" "WA" 47.6097 (-122.3331) 8500);
     ("33101", mkZipData "Miami" "FL" 25.7617 (-80.1918) 11000);
     ("48201", mkZipData "Detroit" "MI" 42.3314 (-83.0458) 5000);
     ("02101", mkZipData "Boston" "MA" 42.3601 (-71.0589) 13000);
     ("75201", mkZipData "Dallas" "TX" 32.7767 (-96.7970) 3500);
     ("85001", mkZipData "Phoenix" "AZ" 33.4484 (-112.0740) 3000);
     ("55401", mkZipData "Minneapolis" "MN" 44.9778 (-93.2650) 7000);
     ("84101", mkZipData "Salt Lake City" "UT" 40.7608 (-111.8910) 3200);
     ("15201", mkZipData "Pittsburgh" "PA" 40.4406 (-79.9959) 5500);
     ("44101", mkZipData "Cleveland" "OH" 41.4993 (-81.6944) 4800);
     ("14201", mkZipData "Buffalo" "NY" 42.8864 (-78.8784) 6500)].

(** ** The lookup collaborator *)

(** The record [SearchEngine.by_zipcode] hands back; every attribute may be
    [None]. *)
Record SimpleZipcode := mkSimpleZipcode {
  sz_zipcode : option string;
  sz_major_city : option string;
  sz_post_office_city : option string;
  sz_state : option string;
  sz_lat : option Q;
  sz_lng : option Q;
  sz_population_density : option Q
}.

(** A call of [by_zipcode] either raises or returns a record or [None]. *)
Inductive SearchOutcome :=
  | Raised
  | Returned (result : option SimpleZipcode).

(** The scorer object: [self.search] is [None] when the lookup library is
    missing or failed to initialise. *)
Record FleetLeadScorer := mkFleetLeadScorer {
  search : option (string -> SearchOutcome)
}.

(** Python's [x or d] on an optional string: [None] and the empty string
    are falsy. *)
Definition str_or (x : option string) (d : string) : string :=
  match x with
  | Some (String c s) => String c s
  | _ => d
  end.

(** [x or 0] on an optional number: [None] and zero are falsy. *)
Definition num_or_0 (x : option Q) : Q :=
  match x with
  | Some v => if Qeq_bool v 0 then 0%Q else v
  | None => 0%Q
  end.

(** Truthiness of an optional string. *)
Definition str_truthy (x : option string) : bool :=
  match x with
  | Some (String _ _) => true
  | _ => false
  end.

Definition get_zip_data (self : FleetLeadScorer) (zip_code : string)
  : option ZipData :=
  let from_search :=
    match search self with
    | Some by_zipcode =>
        match by_zipcode zip_code with
        | Returned (Some result) =>
            if str_truthy (sz_zipcode result) then
              Some {| zd_city := str_or (sz_major_city result)
                                   (str_or (sz_post_office_city result) "Unknown");
                      zd_state := str_or (sz_state result) "Unknown";
                      zd_lat := num_or_0 (sz_lat result);
                      zd_lon := num_or_0 (sz_lng result);
                      zd_pop_density := num_or_0 (sz_population_density result) |}
            else None
        | Returned None => None
        | Raised => None
        end
    | None => None
    end in
  match from_search with
  | Some d => Some d
  | None => MOCK_ZIP_DATA !! zip_code
  end.

(** ** Python built-ins used by the engine *)

(** ASCII white space as [str.strip] sees it. *)
Definition is_space (c : ascii) : bool :=
  let n := N_of_ascii c in
  ((9 <=? n)%N && (n <=? 13)%N) || ((28 <=? n)%N && (n <=? 32)%N).

Fixpoint lstrip (s : string) : string :=
  match s with
  | EmptyString => EmptyString
  | String c s' => if is_space c then lstrip s' else s
  end.

Fixpoint rstrip (s : string) : string :=
  match s with
  | EmptyString => EmptyString
  | String c s' =>
      match rstrip s' with
      | EmptyString => if is_space c then EmptyString else String c EmptyString
      | r => String c r
      end
  end.

Definition strip (s : string) : string := rstrip (lstrip s).

(** [max(a, b, c, d)]. *)
Definition max4 (a b c d : Z) : Z := Z.max (Z.max (Z.max a b) c) d.

(** [l.sort(key=key, reverse=True)]: the list ordered by decreasing key,
    elements with equal keys kept in their original order.  Each element
    is placed in front of the first element whose key is not larger. *)
Section sort.
Context {A : Type} (key : A -> Z).

Fixpoint insert_desc (x : A) (l : list A) : list A :=
  match l with
  | [] => [x]
  | y :: l' => if key y <=? key x then x :: y :: l'
               else y :: insert_desc x l'
  end.

Definition sort_desc (l : list A) : list A := foldr insert_desc [] l.
End sort.

(** ** Core scoring engine *)

Section engine.
(** Distance in miles from a coordinate to the nearest coastal reference
    point. *)
Variable get_nearest_coast_distance : Q -> Q -> Q.

(** Heuristic 1: rust belt and coastal corrosion;
    returns [(salt_belt_score, coastal_score)]. *)
Definition calculate_corrosion_score (state : string) (lat lon : Q) : Z * Z :=
  let salt_score := if bool_decide (state ∈ SALT_BELT_STATES) then 30 else 0 in
  let coastal_score := 0 in
  let coastal_score :=
    if bool_decide (state ∈ COASTAL_STATES) then
      let distance_to_coast := get_nearest_coast_distance lat lon in
      if Qltb distance_to_coast 20 then 15
      else if Qltb distance_to_coast 50 then 8
      else coastal_score
    else coastal_score in
  (salt_score, coastal_score).

(** Heuristic 2: stop-and-go urban wear;
    returns [(urban_score, rural_score)]. *)
Definition calculate_density_score (pop_density : Q) : Z * Z :=
  let urban_score := 0 in
  let rural_score := 0 in
  if Qltb 10000 pop_density then (30, rural_score)
  else if Qltb 5000 pop_density then (25, rural_score)
  else if Qltb 2000 pop_density then (15, rural_score)
  else if Qltb pop_density 500 then (urban_score, 10)
  else if Qltb pop_density 100 then (urban_score, 15)
  else (urban_score, rural_score).

(** Heuristic 3: mountainous terrain stress. *)
Definition calculate_terrain_score (zip_code state : string) : Z :=
  if negb (bool_decide (state ∈ MOUNTAINOUS_STATES)) then 0
  else
    let elevation := get_elevation_estimate zip_code state in
    if 7000 <? elevation then 25
    else if 5000 <? elevation then 20
    else if 3000 <? elevation then 12
    else if 2000 <? elevation then 8
    else 0.

(** Heuristic 4: thermal stress; returns [(heat_score, cold_score)]. *)
Definition calculate_thermal_score (lat : Q) : Z * Z :=
  let heat_score := 0 in
  let cold_score := 0 in
  let heat_score :=
    if Qltb lat 30 then 20
    else if Qltb lat HEAT_RISK_LATITUDE then 12
    else heat_score in
  let cold_score :=
    if Qltb 45 lat then 20
    else if Qltb COLD_RISK_LATITUDE lat then 12
    else cold_score in
  (heat_score, cold_score).

(** Categorise into a marketing bucket. *)
Definition determine_risk_bucket (factors : RiskFactors) : string :=
  let corrosion_total := corrosion factors + coastal factors in
  let urban_total := urban_wear factors in
  let terrain_total := terrain factors in
  let thermal_total := heat factors + cold factors in
  let max_score := max4 corrosion_total urban_total terrain_total thermal_total in
  if (max_score =? corrosion_total) && (25 <=? corrosion_total) then "salt_belt"
  else if (max_score =? terrain_total) && (15 <=? terrain_total) then "transmission_cooker"
  else if (max_score =? urban_total) && (20 <=? urban_total) then "city_grinder"
  else if (max_score =? thermal_total) && (15 <=? thermal_total) then "thermal_stress"
  else "general".

(** [upsells.extend(items)] under its guard. *)
Definition extend_if (guard : bool) (upsells items : list string) : list string :=
  if guard then upsells ++ items else upsells.

(** One turn of the deduplication loop over [(seen, unique)]. *)
Definition dedupe_step (st : gset string * list string) (item : string)
  : gset string * list string :=
  let '(seen, unique) := st in
  if bool_decide (item ∈ seen) then (seen, unique)
  else ({[item]} ∪ seen, unique ++ [item]).

(** Upsell recommendations for a risk profile. *)
Definition get_recommended_upsells (factors : RiskFactors) (bucket : string)
  : list string :=
  let upsells := [] in
  let upsells := extend_if (25 <=? corrosion factors) upsells
    ["Undercoating"; "Brake Line Inspection"; "Caliper Check"] in
  let upsells := extend_if (10 <=? coastal factors) upsells
    ["Rust Proofing"; "Marine Grade Lubricants"] in
  let upsells := extend_if (20 <=? urban_wear factors) upsells
    ["Brake Rotors"; "Starter System Check"; "Door Hinge Lube"] in
  let upsells := extend_if (10 <=? rural_road factors) upsells
    ["Suspension Inspection"; "Alignment Check"; "Skid Plate"] in
  let upsells := extend_if (15 <=? terrain factors) upsells
    ["Transmission Flush"; "Coolant Check"; "Brake Fluid Flush"] in
  let upsells := extend_if (12 <=? heat factors) upsells
    ["Battery Load Test"; "AC System Check"; "Rubber Bushing Inspection"] in
  let upsells := extend_if (12 <=? cold factors) upsells
    ["Block Heater"; "Battery Replacement"; "Alternator Test"] in
  let '(seen, unique) := foldl dedupe_step (∅, []) upsells in
  take 6 unique.

(** The six (score, label) pairs, in the order the code lists them. *)
Definition risk_scores_of (factors : RiskFactors) : list (Z * string) :=
  [ (corrosion factors + coastal factors, "Corrosion");
    (urban_wear factors, "Stop-and-Go Wear");
    (terrain factors, "Terrain Stress");
    (heat factors, "Heat Stress");
    (cold factors, "Cold Start Risk");
    (rural_road factors, "Rural Road Wear") ].

(** Primary and secondary risk labels.  [risk_scores[0]] is in range
    because the list always has six entries ([risk_scores_length]);
    the empty case of the match is never taken. *)
Definition get_primary_risk (factors : RiskFactors) : string * list string :=
  let risk_scores := risk_scores_of factors in
  let risk_scores := sort_desc fst risk_scores in
  let primary :=
    match risk_scores with
    | r0 :: _ => if 0 <? r0.1 then r0.2 else "Low Risk"
    | [] => "Low Risk"
    end in
  let secondary :=
    (λ r, r.2) <$> filter (λ r, 5 <= r.1) (take 2 (drop 1 risk_scores)) in
  (primary, secondary).

(** Complete lead score for a zip code; [None] when it does not resolve. *)
Definition score_zip (self : FleetLeadScorer) (zip_code : string)
  : option FleetLeadScore :=
  match get_zip_data self zip_code with
  | None => None
  | Some zip_data =>
      let city := zd_city zip_data in
      let state := zd_state zip_data in
      let lat := zd_lat zip_data in
      let lon := zd_lon zip_data in
      let pop_density := zd_pop_density zip_data in
      let '(corrosion, coastal) := calculate_corrosion_score state lat lon in
      let '(urban, rural) := calculate_density_score pop_density in
      let terrain := calculate_terrain_score zip_code state in
      let '(heat, cold) := calculate_thermal_score lat in
      let factors := mkRiskFactors corrosion coastal urban rural terrain heat cold in
      let total :=
        Z.min 100 (corrosion + coastal + urban + rural + terrain + heat + cold) in
      let bucket := determine_risk_bucket factors in
      let '(primary, secondary) := get_primary_risk factors in
      let upsells := get_recommended_upsells factors bucket in
      let priority :=
        if 60 <=? total then "hot"
        else if 35 <=? total then "warm"
        else "cold" in
      Some (mkFleetLeadScore zip_code city state lat lon pop_density total
              factors primary secondary bucket upsells priority)
  end.

(** One turn of the batch loop: append the score when there is one. *)
Definition collect (self : FleetLeadScorer) (results : list FleetLeadScore)
    (zc : string) : list FleetLeadScore :=
  match score_zip self (strip zc) with
  | Some score => results ++ [score]
  | None => results
  end.

(** Score several zip codes and sort by severity. *)
Definition score_multiple (self : FleetLeadScorer) (zip_codes : list string)
  : list FleetLeadScore :=
  let results := foldl (collect self) [] zip_codes in
  sort_desc total_severity_score results.

End engine.

(** The scorer running without the lookup library: only the static table
    resolves zip codes. *)
Definition fallback_scorer : FleetLeadScorer := mkFleetLeadScorer None.

(** ** Specification vocabulary *)

(** [precedes p q l]: [p] stands at an earlier position of [l] than [q]. *)
Definition precedes {A} (p q : A) (l : list A) : Prop :=
  ∃ l1 l2 l3, l = l1 ++ p :: l2 ++ q :: l3.

Section sort_spec.
Context {A : Type} (key : A -> Z).

(** Decreasing keys. *)
Definition key_desc : relation A := λ a b, key b ≤ key a.

(** The elements of [l] whose key is [v], in the order of [l]. *)
Definition with_key (v : Z) (l : list A) : list A :=
  filter (λ a, key a = v) l.

(** [out] is [inp] sorted by decreasing key with ties left in input
    order. *)
Definition stable_desc_sort_of (inp out : list A) : Prop :=
  StronglySorted key_desc out ∧ ∀ v, with_key v out = with_key v inp.
End sort_spec.

(** *** Risk bucket: the dominance rule in the words of the specification *)

Definition corrosion_total (f : RiskFactors) : Z := corrosion f + coastal f.
Definition urban_total (f : RiskFactors) : Z := urban_wear f.
Definition terrain_total (f : RiskFactors) : Z := terrain f.
Definition thermal_total (f : RiskFactors) : Z := heat f + cold f.

(** The largest of the four grouped totals. *)
Definition max_score (f : RiskFactors) : Z :=
  Z.max (corrosion_total f)
    (Z.max (urban_total f) (Z.max (terrain_total f) (thermal_total f))).

(** A group wins when it reaches the maximum and its activation floor. *)
Definition corrosion_wins (f : RiskFactors) : Prop :=
  corrosion_total f = max_score f ∧ 25 ≤ corrosion_total f.
Definition terrain_wins (f : RiskFactors) : Prop :=
  terrain_total f = max_score f ∧ 15 ≤ terrain_total f.
Definition urban_wins (f : RiskFactors) : Prop :=
  urban_total f = max_score f ∧ 20 ≤ urban_total f.
Definition thermal_wins (f : RiskFactors) : Prop :=
  thermal_total f = max_score f ∧ 15 ≤ thermal_total f.

(** *** Lead priority *)

(** The tiers in increasing order of urgency; an unknown label ranks
    lowest. *)
Definition priority_rank (p : string) : Z :=
  if bool_decide (p = "hot") then 2
  else if bool_decide (p = "warm") then 1
  else 0.

(** *** Upsell recommendations *)

(** The rule table: a threshold on one sub-score and the items it adds. *)
Definition upsell_rules (f : RiskFactors) : list (bool * list string) :=
  [ (bool_decide (25 ≤ corrosion f),
      ["Undercoating"; "Brake Line Inspection"; "Caliper Check"]);
    (bool_decide (10 ≤ coastal f),
      ["Rust Proofing"; "Marine Grade Lubricants"]);
    (bool_decide (20 ≤ urban_wear f),
      ["Brake Rotors"; "Starter System Check"; "Door Hinge Lube"]);
    (bool_decide (10 ≤ rural_road f),
      ["Suspension Inspection"; "Alignment Check"; "Skid Plate"]);
    (bool_decide (15 ≤ terrain f),
      ["Transmission Flush"; "Coolant Check"; "Brake Fluid Flush"]);
    (bool_decide (12 ≤ heat f),
      ["Battery Load Test"; "AC System Check"; "Rubber Bushing Inspection"]);
    (bool_decide (12 ≤ cold f),
      ["Block Heater"; "Battery Replacement"; "Alternator Test"]) ].

(** The items of the triggered rules, concatenated in rule order. *)
Definition triggered_items (f : RiskFactors) : list string :=
  concat (snd <$> filter (λ rule, rule.1 = true) (upsell_rules f)).

(** Deduplication that keeps the first occurrence of every item: the head
    stays and its later copies are dropped. *)
Fixpoint first_seen (l : list string) : list string :=
  match l with
  | [] => []
  | x :: l' => x :: filter (λ y, y ≠ x) (first_seen l')
  end.

(** *** Totals *)

Definition sub_score_sum (f : RiskFactors) : Z :=
  corrosion f + coastal f + urban_wear f + rural_road f + terrain f
  + heat f + cold f.

(** The documented ranges of the seven sub-scores. *)
Definition within_documented_maxima (f : RiskFactors) : Prop :=
  0 ≤ corrosion f ≤ 30 ∧ 0 ≤ coastal f ≤ 15 ∧ 0 ≤ urban_wear f ≤ 30 ∧
  0 ≤ rural_road f ≤ 15 ∧ 0 ≤ terrain f ≤ 25 ∧ 0 ≤ heat f ≤ 20 ∧
  0 ≤ cold f ≤ 20.

(** ** Worked scenarios *)

(** A distance oracle for the scenarios: every point is taken to lie on
    the coast.  It is consulted for coastal states only. *)
Definition on_the_coast : Q -> Q -> Q := λ _ _, 0%Q.

(** Miami, FL. *)
Definition miami_score : FleetLeadScore :=
  {| zip_code := "33101"; city := "Miami"; state := "FL";
     latitude := 25.7617; longitude := -80.1918;
     population_density := 11000;
     total_severity_score := 65;
     risk_factors := mkRiskFactors 0 15 30 0 0 20 0;
     primary_risk := "Stop-and-Go Wear";
     secondary_risks := ["Heat Stress"; "Corrosion"];
     risk_bucket := "city_grinder";
     recommended_upsell :=
       ["Rust Proofing"; "Marine Grade Lubricants"; "Brake Rotors";
        "Starter System Check"; "Door Hinge Lube"; "Battery Load Test"];
     lead_priority := "hot" |}.

(** Denver, CO. *)
Definition denver_score : FleetLeadScore :=
  {| zip_code := "80202"; city := "Denver"; state := "CO";
     latitude := 39.7541; longitude := -104.9927;
     population_density := 4500;
     total_severity_score := 35;
     risk_factors := mkRiskFactors 0 0 15 0 20 0 0;
     primary_risk := "Terrain Stress";
     secondary_risks := ["Stop-and-Go Wear"];
     risk_bucket := "transmission_cooker";
     recommended_upsell :=
       ["Transmission Flush"; "Coolant Check"; "Brake Fluid Flush"];
     lead_priority := "warm" |}.

(** Chicago, IL. *)
Definition chicago_score : FleetLeadScore :=
  {| zip_code := "60601"; city := "Chicago"; state := "IL";
     latitude := 41.8819; longitude := -87.6278;
     population_density := 12000;
     total_severity_score := 60;
     risk_factors := mkRiskFactors 30 0 30 0 0 0 0;
     primary_risk := "Corrosion";
     secondary_risks := ["Stop-and-Go Wear"];
     risk_bucket := "salt_belt";
     recommended_upsell :=
       ["Undercoating"; "Brake Line Inspection"; "Caliper Check";
        "Brake Rotors"; "Starter System Check"; "Door Hinge Lube"];
     lead_priority := "hot" |}.

(** ** Distance to the coast *)

(** The distance helpers, with the great-circle formula itself (float
    trigonometry) as the parameter [haversine_distance]. *)
Module Geo.

(** Major coastal cities, as (latitude, longitude). *)
Definition COASTAL_REFERENCE_POINTS : list (Q * Q) :=
  [ (34.0522, -118.2437); (32.7157, -117.1611); (37.7749, -122.4194);
    (47.6062, -122.3321); (45.5152, -122.6784); (25.7617, -80.1918);
    (27.9506, -82.4572); (29.7604, -95.3698); (29.9511, -90.0715);
    (40.7128, -74.0060); (42.3601, -71.0589); (39.2904, -76.6122) ]%Q.

(** A distance as the loop holds it: [float('inf')] or a number of miles. *)
Inductive distance :=
  | Infinite
  | Miles (d : Q).

Section nearest.
Variable haversine_distance : Q -> Q -> Q -> Q -> Q.

(** One turn of the loop: [min_distance = min(min_distance, dist)], which
    keeps the first argument unless the second is smaller. *)
Definition nearer (lat lon : Q) (min_distance : distance) (coast : Q * Q)
  : distance :=
  let dist := haversine_distance lat lon coast.1 coast.2 in
  match min_distance with
  | Infinite => Miles dist
  | Miles m => if Qltb dist m then Miles dist else Miles m
  end.

(** Distance to the nearest coastal reference point. *)
Definition get_nearest_coast_distance (lat lon : Q) : distance :=
  foldl (nearer lat lon) Infinite COASTAL_REFERENCE_POINTS.
End nearest.

End Geo.

(** ** The summary report *)

(** The three lead lists of the summary output, [(hot, warm, cold)]. *)
Definition summary_leads (results : list FleetLeadScore)
  : list FleetLeadScore * list FleetLeadScore * list FleetLeadScore :=
  let hot := filter (λ r, lead_priority r = "hot") results in
  let warm := filter (λ r, lead_priority r = "warm") results in
  let cold := filter (λ r, lead_priority r = "cold") results in
  (hot, warm, cold).

(** One turn of the bucket breakdown:
    [buckets[r.risk_bucket] = buckets.get(r.risk_bucket, 0) + 1]. *)
Definition count_bucket (buckets : gmap string Z) (r : FleetLeadScore)
  : gmap string Z :=
  <[risk_bucket r := default 0 (buckets !! risk_bucket r) + 1]> buckets.

(** The number of leads per marketing bucket. *)
Definition bucket_breakdown (results : list FleetLeadScore) : gmap string Z :=
  foldl count_bucket ∅ results.

(** ** More specification vocabulary *)

(** The lookup library gives nothing for a code: it is missing, it raises,
    it returns [None], or it returns a record without a zip code. *)
Definition search_misses (self : FleetLeadScorer) (zip_code : string) : Prop :=
  match search self with
  | None => True
  | Some by_zipcode =>
      match by_zipcode zip_code with
      | Raised => True
      | Returned None => True
      | Returned (Some result) => str_truthy (sz_zipcode result) = false
      end
  end.

(** The six risk labels, in the order of the (score, label) pairs. *)
Definition risk_labels : list string :=
  ["Corrosion"; "Stop-and-Go Wear"; "Terrain Stress"; "Heat Stress";
   "Cold Start Risk"; "Rural Road Wear"].

(** [x] is the first element of [l] whose key is the largest of [l]. *)
Definition first_maximal {A} (key : A -> Z) (x : A) (l : list A) : Prop :=
  ∃ l1 l2, l = l1 ++ x :: l2 ∧
    Forall (λ y, key y < key x) l1 ∧ Forall (λ y, key y ≤ key x) l2.

(** * Properties *)

(** ** Comparisons *)

Lemma Qltb_lt (x y : Q) : Qltb x y = true <-> (x < y)%Q.
Proof. unfold Qltb, Qlt. apply Z.ltb_lt. Qed.

Lemma Qltb_ge (x y : Q) : Qltb x y = false <-> (y <= x)%Q.
Proof. unfold Qltb, Qle. apply Z.ltb_ge. Qed.

(** ** The sort *)

Section sort_facts.
Context {A : Type} (key : A -> Z).
Implicit Types (l : list A) (x : A) (v : Z).

Lemma insert_desc_perm x l : insert_desc key x l ≡ₚ x :: l.
Proof.
  induction l as [|y l IH]; simpl; [done|].
  destruct (key y <=? key x); [done|].
  rewrite IH. apply Permutation_swap.
Qed.

Lemma sort_desc_perm l : sort_desc key l ≡ₚ l.
Proof.
  induction l as [|x l IH]; simpl; [done|].
  by rewrite insert_desc_perm, IH.
Qed.

Lemma insert_desc_sorted x l :
  StronglySorted (key_desc key) l ->
  StronglySorted (key_desc key) (insert_desc key x l).
Proof.
  induction 1 as [|y l Hl IH Hy]; simpl.
  - repeat constructor.
  - destruct (Z.leb_spec (key y) (key x)) as [Hle|Hgt].
    + constructor; [by constructor|].
      constructor; [done|].
      eapply Forall_impl; [exact Hy|].
      unfold key_desc; simpl; intros; lia.
    + constructor; [done|].
      rewrite insert_desc_perm. constructor; [|done].
      unfold key_desc; lia.
Qed.

Lemma sort_desc_sorted l : StronglySorted (key_desc key) (sort_desc key l).
Proof.
  induction l as [|x l IH]; simpl; [constructor|].
  by apply insert_desc_sorted.
Qed.

Lemma insert_desc_with_key v x l :
  with_key key v (insert_desc key x l) = with_key key v (x :: l).
Proof.
  unfold with_key.
  induction l as [|y l IH]; simpl; [done|].
  destruct (Z.leb_spec (key y) (key x)) as [Hle|Hgt]; [done|].
  rewrite (filter_cons _ y), IH, !filter_cons.
  repeat case_decide; try done; lia.
Qed.

Lemma sort_desc_with_key v l :
  with_key key v (sort_desc key l) = with_key key v l.
Proof.
  induction l as [|x l IH]; simpl; [done|].
  rewrite insert_desc_with_key. unfold with_key in *.
  by rewrite !filter_cons, IH.
Qed.

(** The model of [list.sort(key=..., reverse=True)] is a stable
    descending sort. *)
Lemma sort_desc_stable l : stable_desc_sort_of key l (sort_desc key l).
Proof. split; [apply sort_desc_sorted | intros; apply sort_desc_with_key]. Qed.

Lemma with_key_head x l : with_key key (key x) (x :: l) = x :: with_key key (key x) l.
Proof. unfold with_key. by rewrite filter_cons_True. Qed.

(** Two decreasing lists with the same elements, in the same order, at
    every key are the same list. *)
Lemma sorted_with_key_eq l1 l2 :
  StronglySorted (key_desc key) l1 ->
  StronglySorted (key_desc key) l2 ->
  (∀ v, with_key key v l1 = with_key key v l2) ->
  l1 = l2.
Proof.
  intros Hs1; revert l2.
  induction Hs1 as [|a t Ht IH Ha]; intros l2 Hs2 Heq.
  - destruct l2 as [|b u]; [done|].
    specialize (Heq (key b)). rewrite with_key_head in Heq. done.
  - destruct Hs2 as [|b u Hu Hb].
    { specialize (Heq (key a)). rewrite with_key_head in Heq. done. }
    assert (key b ≤ key a) as Hba.
    { assert (b ∈ with_key key (key b) (a :: t)) as Hin.
      { rewrite Heq, with_key_head. left. }
      apply list_elem_of_filter in Hin as [_ Hin].
      apply elem_of_cons in Hin as [->|Hin]; [lia|].
      rewrite Forall_forall in Ha. by apply Ha. }
    assert (key a ≤ key b) as Hab.
    { assert (a ∈ with_key key (key a) (b :: u)) as Hin.
      { rewrite <- Heq, with_key_head. left. }
      apply list_elem_of_filter in Hin as [_ Hin].
      apply elem_of_cons in Hin as [->|Hin]; [lia|].
      rewrite Forall_forall in Hb. by apply Hb. }
    assert (key a = key b) as Hk by lia.
    assert (a = b) as ->.
    { pose proof (Heq (key a)) as H0.
      rewrite with_key_head, Hk, with_key_head in H0. congruence. }
    f_equal. apply IH; [done|]. intros v.
    specialize (Heq v). unfold with_key in *.
    rewrite !filter_cons in Heq. case_decide; congruence.
Qed.

(** Hence the stable descending sort of a list is unique, and it is the
    list [sort_desc] computes. *)
Lemma stable_desc_sort_unique inp out :
  stable_desc_sort_of key inp out -> out = sort_desc key inp.
Proof.
  intros [Hs Hk]. apply sorted_with_key_eq; [done|apply sort_desc_sorted|].
  intros v. by rewrite Hk, sort_desc_with_key.
Qed.

Lemma filter_cons_inv (P : A -> Prop) `{!∀ a, Decision (P a)} l x k :
  filter P l = x :: k ->
  ∃ l1 l2, l = l1 ++ x :: l2 ∧ filter P l2 = k.
Proof.
  induction l as [|y l IH]; [done|].
  rewrite filter_cons. case_decide.
  - intros [= -> <-]. by exists [], l.
  - intros (l1 & l2 & -> & <-)%IH. by exists (y :: l1), l2.
Qed.

Lemma filter_app_inv (P : A -> Prop) `{!∀ a, Decision (P a)} l k1 k2 :
  filter P l = k1 ++ k2 ->
  ∃ l1 l2, l = l1 ++ l2 ∧ filter P l2 = k2.
Proof.
  revert l. induction k1 as [|x k1 IH]; intros l; simpl.
  - intros Hl. by exists [], l.
  - intros (l1 & l2 & -> & (l3 & l4 & -> & <-)%IH)%filter_cons_inv.
    exists (l1 ++ x :: l3), l4. by rewrite <- app_assoc.
Qed.

(** Stability read on positions: of two elements with the same key the
    one that is earlier in the input is earlier in the output. *)
Lemma stable_desc_sort_precedes inp out (p q : A) :
  stable_desc_sort_of key inp out ->
  key p = key q ->
  precedes p q inp -> precedes p q out.
Proof.
  intros [_ Hk] Hpq (a & b & c & ->).
  specialize (Hk (key p)). unfold with_key in Hk.
  rewrite filter_app, filter_cons_True, filter_app, filter_cons_True in Hk by done.
  apply filter_app_inv in Hk as (o1 & o2 & -> & Hk).
  apply filter_cons_inv in Hk as (o3 & o4 & -> & Hk).
  apply filter_app_inv in Hk as (o5 & o6 & -> & Hk).
  apply filter_cons_inv in Hk as (o7 & o8 & -> & _).
  exists (o1 ++ o3), (o5 ++ o7), o8.
  by rewrite <- !app_assoc.
Qed.
End sort_facts.


(** ** The heuristic evaluators *)

Section heuristics_facts.
Variable get_nearest_coast_distance : Q -> Q -> Q.

Lemma calculate_corrosion_score_values state lat lon :
  let p := calculate_corrosion_score get_nearest_coast_distance state lat lon in
  (p.1 = 0 ∨ p.1 = 30) ∧ (p.2 = 0 ∨ p.2 = 8 ∨ p.2 = 15).
Proof.
  unfold calculate_corrosion_score; cbv zeta.
  destruct (bool_decide (state ∈ SALT_BELT_STATES));
    destruct (bool_decide (state ∈ COASTAL_STATES));
    try destruct (Qltb (get_nearest_coast_distance lat lon) 20);
    try destruct (Qltb (get_nearest_coast_distance lat lon) 50);
    cbn [fst snd]; auto.
Qed.

Lemma calculate_density_score_values pop_density :
  let p := calculate_density_score pop_density in
  (p.1 = 0 ∨ p.1 = 15 ∨ p.1 = 25 ∨ p.1 = 30) ∧ (p.2 = 0 ∨ p.2 = 10).
Proof.
  unfold calculate_density_score; cbv zeta.
  destruct (Qltb 10000 pop_density); [cbn [fst snd]; auto|].
  destruct (Qltb 5000 pop_density); [cbn [fst snd]; auto|].
  destruct (Qltb 2000 pop_density); [cbn [fst snd]; auto|].
  destruct (Qltb pop_density 500) eqn:H500; [cbn [fst snd]; auto|].
  destruct (Qltb pop_density 100) eqn:H100; [|cbn [fst snd]; auto].
  apply Qltb_ge in H500. apply Qltb_lt in H100.
  exfalso. apply (Qlt_irrefl pop_density).
  eapply Qlt_le_trans; [exact H100|].
  eapply Qle_trans; [|exact H500]. done.
Qed.

Lemma calculate_terrain_score_values zip_code state :
  let t := calculate_terrain_score zip_code state in
  t = 0 ∨ t = 8 ∨ t = 12 ∨ t = 20 ∨ t = 25.
Proof.
  unfold calculate_terrain_score; cbv zeta.
  generalize (get_elevation_estimate zip_code state); intros elevation.
  destruct (negb _); [auto|].
  destruct (7000 <? elevation); [auto 10|].
  destruct (5000 <? elevation); [auto 10|].
  destruct (3000 <? elevation); [auto 10|].
  destruct (2000 <? elevation); auto 10.
Qed.

Lemma calculate_thermal_score_values lat :
  let p := calculate_thermal_score lat in
  (p.1 = 0 ∨ p.1 = 12 ∨ p.1 = 20) ∧ (p.2 = 0 ∨ p.2 = 12 ∨ p.2 = 20).
Proof.
  unfold calculate_thermal_score; cbv zeta.
  destruct (Qltb lat 30); destruct (Qltb lat HEAT_RISK_LATITUDE);
    destruct (Qltb 45 lat); destruct (Qltb COLD_RISK_LATITUDE lat);
    cbn [fst snd]; auto.
Qed.

(** What a successful [score_zip] returns, field by field. *)
Lemma score_zip_Some self z r :
  score_zip get_nearest_coast_distance self z = Some r ->
  ∃ zd, get_zip_data self z = Some zd ∧
    zip_code r = z ∧
    latitude r = zd_lat zd ∧
    population_density r = zd_pop_density zd ∧
    risk_factors r =
      (let cc := calculate_corrosion_score get_nearest_coast_distance
                   (zd_state zd) (zd_lat zd) (zd_lon zd) in
       let ur := calculate_density_score (zd_pop_density zd) in
       let hc := calculate_thermal_score (zd_lat zd) in
       mkRiskFactors cc.1 cc.2 ur.1 ur.2
         (calculate_terrain_score z (zd_state zd)) hc.1 hc.2) ∧
    total_severity_score r = Z.min 100 (sub_score_sum (risk_factors r)) ∧
    risk_bucket r = determine_risk_bucket (risk_factors r) ∧
    primary_risk r = (get_primary_risk (risk_factors r)).1 ∧
    secondary_risks r = (get_primary_risk (risk_factors r)).2 ∧
    recommended_upsell r =
      get_recommended_upsells (risk_factors r) (risk_bucket r) ∧
    lead_priority r =
      (if 60 <=? total_severity_score r then "hot"
       else if 35 <=? total_severity_score r then "warm"
       else "cold").
Proof.
  unfold score_zip.
  destruct (get_zip_data self z) as [zd|]; [|done].
  cbv zeta.
  destruct (calculate_corrosion_score _ _ _ _) as [c co] eqn:Hc.
  destruct (calculate_density_score _) as [u ru] eqn:Hu.
  destruct (calculate_thermal_score _) as [h cd] eqn:Hh.
  destruct (get_primary_risk _) as [pr sec] eqn:Hp.
  intros [= <-]. exists zd.
  cbn [zip_code latitude population_density risk_factors total_severity_score
       risk_bucket primary_risk secondary_risks recommended_upsell
       lead_priority fst snd].
  rewrite Hp, Hc, Hu, Hh. cbn [fst snd].
  unfold sub_score_sum.
  cbn [corrosion coastal urban_wear rural_road terrain heat cold].
  repeat split; reflexivity.
Qed.

(** Every risk profile the engine builds respects the documented ranges. *)
Lemma score_zip_factors_bounded self z r :
  score_zip get_nearest_coast_distance self z = Some r ->
  within_documented_maxima (risk_factors r).
Proof.
  intros (zd & _ & _ & _ & _ & -> & _)%score_zip_Some.
  pose proof (calculate_corrosion_score_values (zd_state zd) (zd_lat zd) (zd_lon zd)) as H1.
  pose proof (calculate_density_score_values (zd_pop_density zd)) as H2.
  pose proof (calculate_terrain_score_values z (zd_state zd)) as H3.
  pose proof (calculate_thermal_score_values (zd_lat zd)) as H4.
  cbv zeta in *. unfold within_documented_maxima.
  cbn [corrosion coastal urban_wear rural_road terrain heat cold].
  lia.
Qed.

End heuristics_facts.

(** ** The scored record *)

Section score_facts.
Variable get_nearest_coast_distance : Q -> Q -> Q.

(** C1. The total severity of every scored record is the sum of its seven
    sub-scores capped at 100, and so lies between 0 and 100. *)
Theorem total_severity_is_capped_sum self z r :
  score_zip get_nearest_coast_distance self z = Some r ->
  let f := risk_factors r in
  total_severity_score r =
    Z.min 100 (corrosion f + coastal f + urban_wear f + rural_road f
               + terrain f + heat f + cold f)
  ∧ 0 ≤ total_severity_score r ≤ 100.
Proof.
  intros Hr f.
  pose proof (score_zip_factors_bounded _ _ _ _ Hr) as Hb.
  apply score_zip_Some in Hr as (zd & _ & _ & _ & _ & _ & Ht & _).
  unfold within_documented_maxima in Hb. fold f in Hb, Ht.
  unfold sub_score_sum in Ht. split; [exact Ht|]. lia.
Qed.

(** C9. Every sub-score of a scored record is non-negative and within its
    documented maximum. *)
Theorem sub_scores_within_maxima self z r :
  score_zip get_nearest_coast_distance self z = Some r ->
  let f := risk_factors r in
  0 ≤ corrosion f ≤ 30 ∧ 0 ≤ coastal f ≤ 15 ∧ 0 ≤ urban_wear f ≤ 30 ∧
  0 ≤ rural_road f ≤ 15 ∧ 0 ≤ terrain f ≤ 25 ∧ 0 ≤ heat f ≤ 20 ∧
  0 ≤ cold f ≤ 20.
Proof. intros Hr f. exact (score_zip_factors_bounded _ _ _ _ Hr). Qed.

Lemma lead_priority_cases self z r :
  score_zip get_nearest_coast_distance self z = Some r ->
  (60 ≤ total_severity_score r ∧ lead_priority r = "hot") ∨
  (35 ≤ total_severity_score r < 60 ∧ lead_priority r = "warm") ∨
  (total_severity_score r < 35 ∧ lead_priority r = "cold").
Proof.
  intros (zd & _ & _ & _ & _ & _ & _ & _ & _ & _ & _ & ->)%score_zip_Some.
  destruct (Z.leb_spec 60 (total_severity_score r)); [auto|].
  destruct (Z.leb_spec 35 (total_severity_score r)); [right; left|right; right];
    split; (lia || done).
Qed.

(** C5. The lead priority is "hot" exactly from 60 up, "warm" exactly from
    35 to 59 and "cold" exactly below 35; two records with the same total
    have the same priority, and a larger total never has a lower one. *)
Theorem lead_priority_thresholds self1 z1 r1 self2 z2 r2 :
  score_zip get_nearest_coast_distance self1 z1 = Some r1 ->
  score_zip get_nearest_coast_distance self2 z2 = Some r2 ->
  (lead_priority r1 = "hot" ↔ 60 ≤ total_severity_score r1) ∧
  (lead_priority r1 = "warm" ↔ 35 ≤ total_severity_score r1 < 60) ∧
  (lead_priority r1 = "cold" ↔ total_severity_score r1 < 35) ∧
  (total_severity_score r1 = total_severity_score r2 ->
     lead_priority r1 = lead_priority r2) ∧
  (total_severity_score r1 ≤ total_severity_score r2 ->
     priority_rank (lead_priority r1) ≤ priority_rank (lead_priority r2)).
Proof.
  intros H1%lead_priority_cases H2%lead_priority_cases.
  destruct H1 as [[Ht1 ->]|[[Ht1 ->]|[Ht1 ->]]];
    destruct H2 as [[Ht2 ->]|[[Ht2 ->]|[Ht2 ->]]];
    repeat split; intros; try done; try lia.
Qed.

(** C10. Heat is scored exactly below latitude 35 and cold exactly above
    latitude 42, so no latitude gets both, and no risk profile built by the
    engine has both positive. *)
Theorem thermal_scores_exclusive lat :
  let hc := calculate_thermal_score lat in
  (0 < hc.1 ↔ (lat < 35)%Q) ∧
  (0 < hc.2 ↔ (42 < lat)%Q) ∧
  ¬ (0 < hc.1 ∧ 0 < hc.2) ∧
  ∀ self z r,
    score_zip get_nearest_coast_distance self z = Some r ->
    ¬ (0 < heat (risk_factors r) ∧ 0 < cold (risk_factors r)).
Proof.
  assert (∀ l : Q,
    let hc := calculate_thermal_score l in
    (0 < hc.1 ↔ (l < 35)%Q) ∧ (0 < hc.2 ↔ (42 < l)%Q) ∧
    ¬ (0 < hc.1 ∧ 0 < hc.2)) as Hlat.
  { intros [n d]. unfold calculate_thermal_score, Qltb, Qlt,
      HEAT_RISK_LATITUDE, COLD_RISK_LATITUDE.
    cbn [Qnum Qden].
    destruct (Z.ltb_spec (n * Z.pos 1) (30 * Z.pos d));
      destruct (Z.ltb_spec (n * Z.pos 1) (35 * Z.pos d));
      destruct (Z.ltb_spec (45 * Z.pos d) (n * Z.pos 1));
      destruct (Z.ltb_spec (42 * Z.pos d) (n * Z.pos 1));
      cbn [fst snd]; lia. }
  intros hc. destruct (Hlat lat) as (Hh & Hc & Hn).
  repeat split; try apply Hh; try apply Hc; try exact Hn.
  intros self z r (zd & _ & _ & _ & _ & -> & _)%score_zip_Some.
  cbv zeta. cbn [heat cold]. apply Hlat.
Qed.

End score_facts.

(** ** The classifier *)

Lemma wins_spec (m x floor : Z) :
  reflect (x = m ∧ floor ≤ x) ((m =? x) && (floor <=? x)).
Proof.
  destruct (m =? x) eqn:E, (floor <=? x) eqn:L; constructor; lia.
Qed.

Lemma max4_max_score (f : RiskFactors) :
  max4 (corrosion f + coastal f) (urban_wear f) (terrain f) (heat f + cold f)
  = max_score f.
Proof.
  unfold max4, max_score, corrosion_total, urban_total, terrain_total,
    thermal_total. lia.
Qed.

(** C2. The bucket is "salt_belt" exactly when corrosion wins; otherwise
    "transmission_cooker" exactly when terrain wins; otherwise
    "city_grinder" exactly when urban wear wins; otherwise "thermal_stress"
    exactly when thermal wins; otherwise "general".  A group wins when its
    total equals the largest of the four and reaches its floor (25, 15, 20,
    15), so ties go to the group checked first. *)
Theorem determine_risk_bucket_dominance (f : RiskFactors) :
  (determine_risk_bucket f = "salt_belt" ↔ corrosion_wins f) ∧
  (determine_risk_bucket f = "transmission_cooker" ↔
     ¬ corrosion_wins f ∧ terrain_wins f) ∧
  (determine_risk_bucket f = "city_grinder" ↔
     ¬ corrosion_wins f ∧ ¬ terrain_wins f ∧ urban_wins f) ∧
  (determine_risk_bucket f = "thermal_stress" ↔
     ¬ corrosion_wins f ∧ ¬ terrain_wins f ∧ ¬ urban_wins f ∧ thermal_wins f) ∧
  (determine_risk_bucket f = "general" ↔
     ¬ corrosion_wins f ∧ ¬ terrain_wins f ∧ ¬ urban_wins f ∧ ¬ thermal_wins f).
Proof.
  unfold determine_risk_bucket. cbv zeta. rewrite max4_max_score.
  unfold corrosion_wins, terrain_wins, urban_wins, thermal_wins,
    corrosion_total, urban_total, terrain_total, thermal_total.
  generalize (max_score f); intros m.
  destruct (wins_spec m (corrosion f + coastal f) 25) as [C|C].
  { repeat split; intros; try reflexivity; try discriminate; tauto. }
  destruct (wins_spec m (terrain f) 15) as [T|T].
  { repeat split; intros; try reflexivity; try discriminate; tauto. }
  destruct (wins_spec m (urban_wear f) 20) as [U|U].
  { repeat split; intros; try reflexivity; try discriminate; tauto. }
  destruct (wins_spec m (heat f + cold f) 15) as [H|H].
  { repeat split; intros; try reflexivity; try discriminate; tauto. }
  repeat split; intros; try reflexivity; try discriminate; tauto.
Qed.

(** *** Density *)

(** The rural score is 10 exactly below 500 people per unit area and 0 from
    500 up; the 15 of the "very rural" branch is never returned, because
    every density below 100 is already caught by the test against 500. *)
Lemma calculate_density_score_rural (pop_density : Q) :
  ((pop_density < 500)%Q -> (calculate_density_score pop_density).2 = 10) ∧
  ((500 <= pop_density)%Q -> (calculate_density_score pop_density).2 = 0) ∧
  (calculate_density_score pop_density).2 ≠ 15.
Proof.
  destruct pop_density as [n d].
  unfold calculate_density_score, Qltb, Qlt, Qle. cbn [Qnum Qden]. cbv zeta.
  destruct (Z.ltb_spec (10000 * Z.pos d) (n * Z.pos 1));
    destruct (Z.ltb_spec (5000 * Z.pos d) (n * Z.pos 1));
    destruct (Z.ltb_spec (2000 * Z.pos d) (n * Z.pos 1));
    destruct (Z.ltb_spec (n * Z.pos 1) (500 * Z.pos d));
    destruct (Z.ltb_spec (n * Z.pos 1) (100 * Z.pos d));
    cbn [fst snd]; repeat split; intros; lia.
Qed.

(** C3, at the input where the code departs from it: a population density
    of 50 is below 100, yet the rural score returned is 10, not 15. *)
Theorem very_rural_density_scores_ten :
  (50 < 100)%Q ∧
  calculate_density_score 50 = (0, 10) ∧
  (calculate_density_score 50).2 ≠ 15.
Proof. split; [reflexivity|]. split; [reflexivity|]. discriminate. Qed.

(** *** Upsell recommendations *)

Lemma leb_bool_decide (a b : Z) : (a <=? b) = bool_decide (a ≤ b).
Proof.
  destruct (Z.leb_spec a b).
  - by rewrite bool_decide_eq_true_2.
  - rewrite bool_decide_eq_false_2; [done|lia].
Qed.

Lemma extend_if_app guard upsells items :
  extend_if guard upsells items = upsells ++ (if guard then items else []).
Proof. destruct guard; simpl; [done|by rewrite app_nil_r]. Qed.

Lemma triggered_cons (b : bool) (items : list string) rules :
  concat (snd <$> filter (λ rule : bool * list string, rule.1 = true)
                    ((b, items) :: rules))
  = (if b then items else [])
    ++ concat (snd <$> filter (λ rule : bool * list string, rule.1 = true) rules).
Proof.
  destruct b.
  - by rewrite filter_cons_True.
  - by rewrite filter_cons_False.
Qed.

Lemma first_seen_filter (P : string -> Prop) `{!∀ x, Decision (P x)} l :
  first_seen (filter P l) = filter P (first_seen l).
Proof.
  induction l as [|x l IH]; [done|].
  rewrite filter_cons. simpl. case_decide as HP.
  - simpl. rewrite filter_cons_True by done. f_equal.
    rewrite IH, !list_filter_filter. apply list_filter_iff. tauto.
  - rewrite filter_cons_False by done.
    rewrite IH, list_filter_filter. apply list_filter_iff.
    intros y. split; [|tauto]. intros Hy. split; [done|]. by intros ->.
Qed.

Lemma first_seen_elem_of l x : x ∈ first_seen l ↔ x ∈ l.
Proof.
  induction l as [|y l IH]; simpl; [done|].
  rewrite !elem_of_cons, list_elem_of_filter, IH.
  destruct (decide (x = y)); tauto.
Qed.

Lemma first_seen_NoDup l : NoDup (first_seen l).
Proof.
  induction l as [|x l IH]; simpl; constructor.
  - rewrite list_elem_of_filter. tauto.
  - by apply NoDup_filter.
Qed.

Lemma filter_all (P : string -> Prop) `{!∀ x, Decision (P x)} (l : list string) :
  (∀ x, P x) -> filter P l = l.
Proof.
  intros HP. induction l as [|x l IH]; [done|].
  rewrite filter_cons_True by done. by rewrite IH.
Qed.

(** The loop over [(seen, unique)] appends the first occurrences of the
    items not seen before. *)
Lemma dedupe_loop (seen : gset string) (unique l : list string) :
  (foldl dedupe_step (seen, unique) l).2
  = unique ++ first_seen (filter (λ x, x ∉ seen) l).
Proof.
  revert seen unique. induction l as [|x l IH]; intros seen unique.
  - simpl. by rewrite app_nil_r.
  - cbn [foldl]. unfold dedupe_step at 2. case_bool_decide as Hx.
    + rewrite IH, filter_cons_False by tauto. done.
    + rewrite IH, filter_cons_True by done. cbn [first_seen].
      rewrite <- app_assoc. cbn [app]. do 2 f_equal.
      rewrite <- first_seen_filter, list_filter_filter. f_equal.
      apply list_filter_iff. intros y.
      rewrite not_elem_of_union, not_elem_of_singleton. tauto.
Qed.

(** C6. The recommendations are the items of the triggered rules, in rule
    order, without the later copies of an item, cut to the first six; so
    there are at most six and none occurs twice. *)
Theorem recommended_upsells_spec (f : RiskFactors) (bucket : string) :
  get_recommended_upsells f bucket = take 6 (first_seen (triggered_items f)) ∧
  (length (get_recommended_upsells f bucket) ≤ 6)%nat ∧
  NoDup (get_recommended_upsells f bucket).
Proof.
  assert (get_recommended_upsells f bucket
          = take 6 (first_seen (triggered_items f))) as ->.
  { unfold get_recommended_upsells. cbv zeta.
    rewrite !extend_if_app.
    match goal with
    | |- (let '(_, unique) := foldl dedupe_step ?st ?l in _) = _ =>
        pose proof (dedupe_loop ∅ [] l) as Hloop;
        destruct (foldl dedupe_step st l) as [seen unique]
    end.
    cbn [snd] in Hloop. rewrite Hloop. cbn [app]. do 2 f_equal.
    unfold triggered_items, upsell_rules.
    rewrite !triggered_cons, !leb_bool_decide.
    rewrite filter_nil. cbn [fmap list_fmap concat].
    rewrite app_nil_r, <- !app_assoc.
    apply filter_all. intros x. apply not_elem_of_empty. }
  split; [done|]. split.
  - rewrite length_take. lia.
  - eapply sublist_NoDup; [apply first_seen_NoDup|apply sublist_take].
Qed.

(** *** Primary and secondary risks *)

Lemma risk_scores_length (f : RiskFactors) :
  length (sort_desc fst (risk_scores_of f)) = 6%nat.
Proof. by rewrite (Permutation_length (sort_desc_perm fst _)). Qed.

(** C7. The six (score, label) pairs, stably sorted by decreasing score,
    give the risks: the primary risk is the label of rank 0 when its score
    is positive and "Low Risk" otherwise; the secondary risks are the
    labels of ranks 1 and 2 whose score is at least 5, at most two of
    them; and of two pairs with the same score the one listed first keeps
    the earlier rank. *)
Theorem primary_and_secondary_risks (f : RiskFactors) :
  let pairs :=
    [ (corrosion f + coastal f, "Corrosion");
      (urban_wear f, "Stop-and-Go Wear");
      (terrain f, "Terrain Stress");
      (heat f, "Heat Stress");
      (cold f, "Cold Start Risk");
      (rural_road f, "Rural Road Wear") ] in
  ∃ r0 r1 r2 rest,
    let ranked := r0 :: r1 :: r2 :: rest in
    stable_desc_sort_of fst pairs ranked ∧
    ranked ≡ₚ pairs ∧
    (∀ p q, p.1 = q.1 -> precedes p q pairs -> precedes p q ranked) ∧
    (get_primary_risk f).1 = (if decide (0 < r0.1) then r0.2 else "Low Risk") ∧
    (get_primary_risk f).2 = snd <$> filter (λ r, 5 ≤ r.1) [r1; r2] ∧
    (length (get_primary_risk f).2 ≤ 2)%nat.
Proof.
  intros pairs. change pairs with (risk_scores_of f). clear pairs.
  pose proof (risk_scores_length f) as Hlen.
  pose proof (sort_desc_stable fst (risk_scores_of f)) as Hst.
  pose proof (sort_desc_perm fst (risk_scores_of f)) as Hperm.
  unfold get_primary_risk. cbv zeta.
  destruct (sort_desc fst (risk_scores_of f)) as [|r0 [|r1 [|r2 rest]]];
    try discriminate Hlen.
  exists r0, r1, r2, rest. cbv zeta.
  split; [exact Hst|]. split; [exact Hperm|]. split.
  { intros p q Hpq. by apply (stable_desc_sort_precedes fst). }
  cbn [fst snd take drop].
  split.
  { destruct (Z.ltb_spec 0 r0.1); case_decide; (done || lia). }
  split; [done|].
  rewrite length_fmap. etransitivity; [apply length_filter|done].
Qed.

(** ** The batch scorer *)

Section batch_facts.
Variable get_nearest_coast_distance : Q -> Q -> Q.

(** The loop of [score_multiple] keeps, in input order, the scores of the
    codes that resolve. *)
Lemma collect_foldl self (acc : list FleetLeadScore) (zip_codes : list string) :
  foldl (collect get_nearest_coast_distance self) acc zip_codes
  = acc ++ omap (λ zc, score_zip get_nearest_coast_distance self (strip zc))
             zip_codes.
Proof.
  revert acc. induction zip_codes as [|zc l IH]; intros acc.
  - simpl. by rewrite app_nil_r.
  - cbn [foldl omap list_omap]. rewrite IH. unfold collect.
    destruct (score_zip _ self (strip zc)); [|done].
    by rewrite <- app_assoc.
Qed.

Lemma score_multiple_unfold self zip_codes :
  score_multiple get_nearest_coast_distance self zip_codes
  = sort_desc total_severity_score
      (omap (λ zc, score_zip get_nearest_coast_distance self (strip zc))
         zip_codes).
Proof. unfold score_multiple. cbv zeta. by rewrite collect_foldl. Qed.

(** C4. The batch output is ordered by non-increasing total severity, and
    at every total the records stand in the order in which their zip codes
    were given. *)
Theorem score_multiple_sorted_stable self (zip_codes : list string) :
  let scored :=
    omap (λ zc, score_zip get_nearest_coast_distance self (strip zc))
      zip_codes in
  let out := score_multiple get_nearest_coast_distance self zip_codes in
  StronglySorted
    (λ a b, total_severity_score b ≤ total_severity_score a) out ∧
  out ≡ₚ scored ∧
  (∀ v, filter (λ r, total_severity_score r = v) out
        = filter (λ r, total_severity_score r = v) scored) ∧
  (∀ a b, total_severity_score a = total_severity_score b ->
          precedes a b scored -> precedes a b out).
Proof.
  intros scored out. unfold out. rewrite score_multiple_unfold. fold scored.
  pose proof (sort_desc_stable total_severity_score scored) as Hst.
  split; [apply Hst|]. split; [apply sort_desc_perm|].
  split; [apply Hst|].
  intros a b Hab. by apply (stable_desc_sort_precedes total_severity_score).
Qed.

(** C8. A zip code that does not resolve gets no score from [score_zip];
    in a batch its entry changes nothing for the other codes, and no
    record of any batch carries it. *)
Theorem unresolvable_code_is_skipped self (z zc : string) :
  get_zip_data self z = None ->
  strip zc = z ->
  score_zip get_nearest_coast_distance self z = None ∧
  (∀ before after,
     score_multiple get_nearest_coast_distance self (before ++ zc :: after)
     = score_multiple get_nearest_coast_distance self (before ++ after)) ∧
  (∀ zip_codes r,
     r ∈ score_multiple get_nearest_coast_distance self zip_codes ->
     zip_code r ≠ z).
Proof.
  intros Hz Hzc.
  assert (score_zip get_nearest_coast_distance self z = None) as Hnone.
  { unfold score_zip. by rewrite Hz. }
  split; [exact Hnone|]. split.
  - intros before after. rewrite !score_multiple_unfold, !omap_app.
    cbn [omap list_omap]. by rewrite Hzc, Hnone.
  - intros zip_codes r. rewrite score_multiple_unfold, sort_desc_perm.
    intros (zc' & _ & Hr)%list_elem_of_omap.
    apply score_zip_Some in Hr as (zd & Hzd & Hcode & _).
    intros Heq. congruence.
Qed.

End batch_facts.

(** ** The scenarios of the specification *)

Example score_zip_miami :
  score_zip on_the_coast fallback_scorer "33101" = Some miami_score.
Proof. vm_compute. reflexivity. Qed.

Example score_zip_denver :
  score_zip on_the_coast fallback_scorer "80202" = Some denver_score.
Proof. vm_compute. reflexivity. Qed.

Example score_zip_chicago :
  score_zip on_the_coast fallback_scorer "60601" = Some chicago_score.
Proof. vm_compute. reflexivity. Qed.

Example score_zip_unknown :
  score_zip on_the_coast fallback_scorer "00000" = None.
Proof. vm_compute. reflexivity. Qed.

Example score_multiple_batch :
  zip_code <$> score_multiple on_the_coast fallback_scorer
                 ["80202"; "60601 "; "00000"; "10001"; "48201"; " 33101"]
  = ["10001"; "33101"; "60601"; "48201"; "80202"].
Proof. vm_compute. reflexivity. Qed.

(** Equal scores: the pair listed first takes the earlier rank. *)
Example primary_risk_tie :
  get_primary_risk (mkRiskFactors 0 0 5 5 5 5 5)
  = ("Stop-and-Go Wear", ["Terrain Stress"; "Heat Stress"]).
Proof. vm_compute. reflexivity. Qed.

Example risk_bucket_tie :
  determine_risk_bucket (mkRiskFactors 30 0 30 0 30 0 0) = "salt_belt".
Proof. vm_compute. reflexivity. Qed.

(** ** The theorems at the scenarios *)

Lemma total_severity_is_capped_sum_miami :
  score_zip on_the_coast fallback_scorer "33101" = Some miami_score ∧
  (total_severity_score miami_score = Z.min 100 (0 + 15 + 30 + 0 + 0 + 20 + 0)
   ∧ 0 ≤ total_severity_score miami_score ≤ 100).
Proof.
  split; [vm_compute; reflexivity|].
  apply (total_severity_is_capped_sum on_the_coast fallback_scorer "33101").
  vm_compute; reflexivity.
Defined.

Lemma sub_scores_within_maxima_miami :
  score_zip on_the_coast fallback_scorer "33101" = Some miami_score ∧
  (0 ≤ 0 ≤ 30 ∧ 0 ≤ 15 ≤ 15 ∧ 0 ≤ 30 ≤ 30 ∧ 0 ≤ 0 ≤ 15 ∧ 0 ≤ 0 ≤ 25 ∧
   0 ≤ 20 ≤ 20 ∧ 0 ≤ 0 ≤ 20).
Proof.
  split; [vm_compute; reflexivity|].
  apply (sub_scores_within_maxima on_the_coast fallback_scorer "33101"
           miami_score).
  vm_compute; reflexivity.
Defined.

Lemma lead_priority_thresholds_denver_chicago :
  score_zip on_the_coast fallback_scorer "80202" = Some denver_score ∧
  score_zip on_the_coast fallback_scorer "60601" = Some chicago_score ∧
  (lead_priority denver_score = "warm" ↔
     35 ≤ total_severity_score denver_score < 60) ∧
  (total_severity_score denver_score ≤ total_severity_score chicago_score ->
     priority_rank (lead_priority denver_score)
     ≤ priority_rank (lead_priority chicago_score)).
Proof.
  split; [vm_compute; reflexivity|]. split; [vm_compute; reflexivity|].
  pose proof (lead_priority_thresholds on_the_coast
                fallback_scorer "80202" denver_score
                fallback_scorer "60601" chicago_score) as H.
  destruct H as (_ & Hwarm & _ & _ & Hmono);
    [vm_compute; reflexivity | vm_compute; reflexivity |].
  split; [exact Hwarm | exact Hmono].
Defined.

Lemma unresolvable_code_is_skipped_00000 :
  get_zip_data fallback_scorer "00000" = None ∧
  strip " 00000 " = "00000" ∧
  score_zip on_the_coast fallback_scorer "00000" = None ∧
  score_multiple on_the_coast fallback_scorer ["60601"; " 00000 "; "80202"]
  = score_multiple on_the_coast fallback_scorer ["60601"; "80202"].
Proof.
  split; [vm_compute; reflexivity|]. split; [vm_compute; reflexivity|].
  destruct (unresolvable_code_is_skipped on_the_coast fallback_scorer
              "00000" " 00000 ") as (Hnone & Hskip & _);
    [vm_compute; reflexivity | vm_compute; reflexivity |].
  split; [exact Hnone|]. exact (Hskip ["60601"] ["80202"]).
Defined.

(** * Further properties of the code *)

(** ** Elevation and terrain *)

(** Membership in a table written out as a list, turned into the cases of
    its entries. *)
Ltac table_cases H :=
  repeat (apply elem_of_cons in H as [H|H]; [injection H as ? ?; subst|]);
  try (apply elem_of_nil in H; destruct H).

(** The same, without substituting the entry. *)
Ltac table_cases_keep H :=
  repeat (apply elem_of_cons in H as [H|H]; [rewrite H|]);
  try (apply elem_of_nil in H; destruct H).

(** The estimate never falls in the band (2000, 3000]: the tables only hold
    elevations up to 1500 and from 3500 up, and the default is 500. *)
Lemma get_elevation_estimate_gap (zip_code state : string) :
  let e := get_elevation_estimate zip_code state in
  500 ≤ e ≤ 8000 ∧ (e ≤ 1500 ∨ 3500 ≤ e).
Proof.
  unfold get_elevation_estimate. cbv zeta.
  destruct (HIGH_ELEVATION_PREFIXES !! prefix3 zip_code) as [e|] eqn:Hp.
  - unfold HIGH_ELEVATION_PREFIXES in Hp.
    apply elem_of_list_to_map_2 in Hp. table_cases Hp; lia.
  - destruct (state_elevations !! state) as [e|] eqn:Hs;
      unfold default, id; [|lia].
    unfold state_elevations in Hs.
    apply elem_of_list_to_map_2 in Hs. table_cases Hs; lia.
Qed.

(** X1. The elevation estimate is always between 500 and 8000 feet. *)
Theorem get_elevation_estimate_bounds (zip_code state : string) :
  500 ≤ get_elevation_estimate zip_code state ≤ 8000.
Proof. apply get_elevation_estimate_gap. Qed.

(** X2. The terrain score is 0 outside the mountainous states and is one of
    0, 12, 20 and 25 everywhere: the 8 of the "elevated" tier is never
    returned, since no estimate lies above 2000 and at most 3000. *)
Theorem calculate_terrain_score_tiers (zip_code state : string) :
  let t := calculate_terrain_score zip_code state in
  (state ∉ MOUNTAINOUS_STATES -> t = 0) ∧
  (t = 0 ∨ t = 12 ∨ t = 20 ∨ t = 25) ∧
  (0 < t ↔ state ∈ MOUNTAINOUS_STATES ∧
           3000 < get_elevation_estimate zip_code state).
Proof.
  pose proof (get_elevation_estimate_gap zip_code state) as He.
  cbv zeta in He. unfold calculate_terrain_score. cbv zeta.
  generalize dependent (get_elevation_estimate zip_code state).
  intros e He.
  case_bool_decide as Hm; cbn [negb].
  - destruct (Z.ltb_spec 7000 e); [intuition lia|].
    destruct (Z.ltb_spec 5000 e); [intuition lia|].
    destruct (Z.ltb_spec 3000 e); [intuition lia|].
    destruct (Z.ltb_spec 2000 e); intuition lia.
  - intuition lia.
Qed.

(** ** Density *)

Lemma Qltb_mono_r (c x y : Q) :
  (x <= y)%Q -> Qltb c x = true -> Qltb c y = true.
Proof.
  rewrite !Qltb_lt. intros Hxy Hc. by apply (Qlt_le_trans _ x).
Qed.

Lemma Qltb_mono_l (c x y : Q) :
  (x <= y)%Q -> Qltb y c = true -> Qltb x c = true.
Proof.
  rewrite !Qltb_lt. intros Hxy Hc. by apply (Qle_lt_trans _ y).
Qed.

Lemma Qltb_anti_l (c x y : Q) :
  (x <= y)%Q -> Qltb x c = false -> Qltb y c = false.
Proof.
  rewrite !Qltb_ge. intros Hxy Hc. by apply (Qle_trans _ x).
Qed.

Lemma Qltb_100_500 (x : Q) : Qltb x 500 = false -> Qltb x 100 = false.
Proof.
  rewrite !Qltb_ge. intros H. by apply (Qle_trans _ 500).
Qed.

(** X3. No density scores on both sides: the urban and the rural score are
    never both positive, and a density from 500 to 2000 scores on neither. *)
Theorem calculate_density_score_exclusive (pop_density : Q) :
  let p := calculate_density_score pop_density in
  (p.1 = 0 ∨ p.2 = 0) ∧
  ((500 <= pop_density)%Q ∧ (pop_density <= 2000)%Q ↔ p = (0, 0)).
Proof.
  destruct pop_density as [n d].
  unfold calculate_density_score, Qltb, Qlt, Qle. cbn [Qnum Qden]. cbv zeta.
  destruct (Z.ltb_spec (10000 * Z.pos d) (n * Z.pos 1));
    destruct (Z.ltb_spec (5000 * Z.pos d) (n * Z.pos 1));
    destruct (Z.ltb_spec (2000 * Z.pos d) (n * Z.pos 1));
    destruct (Z.ltb_spec (n * Z.pos 1) (500 * Z.pos d));
    destruct (Z.ltb_spec (n * Z.pos 1) (100 * Z.pos d));
    cbn [fst snd]; (split; [auto|]); split;
    intros Hp; first [ discriminate Hp | reflexivity | lia ].
Qed.

(** X4. A denser place never has a lower urban score nor a higher rural
    score. *)
Theorem calculate_density_score_monotone (d1 d2 : Q) :
  (d1 <= d2)%Q ->
  (calculate_density_score d1).1 ≤ (calculate_density_score d2).1 ∧
  (calculate_density_score d2).2 ≤ (calculate_density_score d1).2.
Proof.
  intros Hle. unfold calculate_density_score. cbv zeta.
  destruct (Qltb 10000 d1) eqn:A1.
  { rewrite (Qltb_mono_r _ _ _ Hle A1). cbn [fst snd]. lia. }
  destruct (Qltb 5000 d1) eqn:B1.
  { rewrite (Qltb_mono_r _ _ _ Hle B1).
    destruct (Qltb 10000 d2); cbn [fst snd]; lia. }
  destruct (Qltb 2000 d1) eqn:C1.
  { rewrite (Qltb_mono_r _ _ _ Hle C1).
    destruct (Qltb 10000 d2), (Qltb 5000 d2); cbn [fst snd]; lia. }
  destruct (Qltb d1 500) eqn:D1.
  { destruct (Qltb 10000 d2), (Qltb 5000 d2), (Qltb 2000 d2),
      (Qltb d2 500) eqn:D2; cbn [fst snd]; try lia.
    rewrite (Qltb_100_500 _ D2). cbn [fst snd]. lia. }
  rewrite (Qltb_100_500 _ D1).
  pose proof (Qltb_anti_l _ _ _ Hle D1) as D2.
  rewrite D2, (Qltb_100_500 _ D2).
  destruct (Qltb 10000 d2), (Qltb 5000 d2), (Qltb 2000 d2);
    cbn [fst snd]; lia.
Qed.

(** ** Distance to the coast *)

Section nearest_facts.
Variable haversine_distance : Q -> Q -> Q -> Q -> Q.

(** The loop invariant: the running minimum is below the start value and
    every point seen, and it is the start value or the distance of a point
    seen. *)
Lemma nearer_foldl (lat lon : Q) (pts : list (Q * Q)) (acc : Geo.distance) :
  match foldl (Geo.nearer haversine_distance lat lon) acc pts with
  | Geo.Infinite => acc = Geo.Infinite ∧ pts = []
  | Geo.Miles d =>
      Forall (λ p, (d <= haversine_distance lat lon p.1 p.2)%Q) pts ∧
      (∀ m, acc = Geo.Miles m -> (d <= m)%Q) ∧
      ((∃ p, p ∈ pts ∧ d = haversine_distance lat lon p.1 p.2)
       ∨ acc = Geo.Miles d)
  end.
Proof.
  revert acc. induction pts as [|p pts IH]; intros acc; cbn [foldl].
  - destruct acc as [|d]; [done|].
    split; [constructor|]. split; [|by right].
    intros m [= ->]. apply Qle_refl.
  - specialize (IH (Geo.nearer haversine_distance lat lon acc p)).
    destruct (foldl _ _ pts) as [|d].
    { destruct IH as [IH _]. unfold Geo.nearer in IH.
      destruct acc; [done|]. by destruct (Qltb _ _). }
    destruct IH as (Hall & Hacc & Hfrom).
    unfold Geo.nearer in Hacc, Hfrom. cbv zeta in Hacc, Hfrom.
    destruct acc as [|m].
    + split; [|split; [done|]].
      * constructor; [by apply Hacc|done].
      * left. destruct Hfrom as [(q & Hq & ->)|[= <-]].
        -- exists q. split; [by right|done].
        -- exists p. split; [by left|done].
    + destruct (Qltb (haversine_distance lat lon p.1 p.2) m) eqn:Hlt.
      * apply Qltb_lt in Hlt. split; [|split].
        -- constructor; [by apply Hacc|done].
        -- intros m' [= <-]. eapply Qle_trans; [by apply Hacc|].
           by apply Qlt_le_weak.
        -- left. destruct Hfrom as [(q & Hq & ->)|[= <-]].
           ++ exists q. split; [by right|done].
           ++ exists p. split; [by left|done].
      * apply Qltb_ge in Hlt. split; [|split].
        -- constructor; [|done]. eapply Qle_trans; [by apply Hacc|done].
        -- intros m' [= <-]. by apply Hacc.
        -- destruct Hfrom as [(q & Hq & ->)|[= <-]].
           ++ left. exists q. split; [by right|done].
           ++ by right.
Qed.

(** X5. The nearest-coast distance is finite, no reference point is closer
    than it, and it is the distance to one of the reference points. *)
Theorem get_nearest_coast_distance_is_minimum (lat lon : Q) :
  ∃ d, Geo.get_nearest_coast_distance haversine_distance lat lon = Geo.Miles d ∧
    (∀ p, p ∈ Geo.COASTAL_REFERENCE_POINTS ->
          (d <= haversine_distance lat lon p.1 p.2)%Q) ∧
    (∃ p, p ∈ Geo.COASTAL_REFERENCE_POINTS ∧
          d = haversine_distance lat lon p.1 p.2).
Proof.
  unfold Geo.get_nearest_coast_distance.
  pose proof (nearer_foldl lat lon Geo.COASTAL_REFERENCE_POINTS Geo.Infinite)
    as H.
  destruct (foldl _ _ _) as [|d].
  { destruct H as [_ H]. discriminate H. }
  destruct H as (Hall & _ & [Hp|Hp]); [|discriminate Hp].
  exists d. split; [done|]. split; [|done].
  by apply Forall_forall.
Qed.

(** X6. With that distance, the coastal score is 15 exactly in a coastal
    state with a reference point closer than 20 miles, and positive
    exactly in a coastal state with a reference point closer than 50. *)
Theorem coastal_score_by_reference_points
    (dist : Q -> Q -> Q) (state : string) (lat lon : Q) :
  Geo.get_nearest_coast_distance haversine_distance lat lon
    = Geo.Miles (dist lat lon) ->
  let co := (calculate_corrosion_score dist state lat lon).2 in
  (co = 15 ↔ state ∈ COASTAL_STATES ∧
     ∃ p, p ∈ Geo.COASTAL_REFERENCE_POINTS ∧
          (haversine_distance lat lon p.1 p.2 < 20)%Q) ∧
  (0 < co ↔ state ∈ COASTAL_STATES ∧
     ∃ p, p ∈ Geo.COASTAL_REFERENCE_POINTS ∧
          (haversine_distance lat lon p.1 p.2 < 50)%Q).
Proof.
  intros Hd.
  destruct (get_nearest_coast_distance_is_minimum lat lon)
    as (d & Hd' & Hmin & (q & Hq & Hdq)).
  rewrite Hd in Hd'. injection Hd' as Hd'.
  assert (∀ c : Q, Qltb (dist lat lon) c = true ↔
            ∃ p, p ∈ Geo.COASTAL_REFERENCE_POINTS ∧
                 (haversine_distance lat lon p.1 p.2 < c)%Q) as Hnear.
  { intros c. rewrite Qltb_lt, Hd'. split.
    - intros Hc. exists q. split; [done|]. by rewrite <- Hdq.
    - intros (p & Hp & Hc). eapply Qle_lt_trans; [by apply Hmin|done]. }
  unfold calculate_corrosion_score. cbv zeta. cbn [snd].
  case_bool_decide as Hc.
  - destruct (Qltb (dist lat lon) 20) eqn:H20.
    + assert (Qltb (dist lat lon) 50 = true) as H50.
      { apply Qltb_lt. apply (Qlt_trans _ 20); [by apply Qltb_lt|done]. }
      apply Hnear in H20, H50. split; (split; [done|by intros _]).
    + assert (¬ ∃ p, p ∈ Geo.COASTAL_REFERENCE_POINTS ∧
                     (haversine_distance lat lon p.1 p.2 < 20)%Q) as N20.
      { rewrite <- Hnear, H20. done. }
      destruct (Qltb (dist lat lon) 50) eqn:H50.
      * apply Hnear in H50. split; split; try done; try tauto; lia.
      * assert (¬ ∃ p, p ∈ Geo.COASTAL_REFERENCE_POINTS ∧
                     (haversine_distance lat lon p.1 p.2 < 50)%Q) as N50.
        { rewrite <- Hnear, H50. done. }
        split; split; try done; try tauto; lia.
  - split; split; try done; try tauto; lia.
Qed.

End nearest_facts.

(** ** Resolving a zip code *)

(** X7. When the lookup library is missing, raises, returns nothing or
    returns a record without a zip code, the static table answers: nothing
    of the failure surfaces. *)
Theorem get_zip_data_falls_back (self : FleetLeadScorer) (zip_code : string) :
  search_misses self zip_code ->
  get_zip_data self zip_code = MOCK_ZIP_DATA !! zip_code.
Proof.
  unfold search_misses, get_zip_data. cbv zeta.
  destruct (search self) as [by_zipcode|]; [|done].
  destruct (by_zipcode zip_code) as [|[result|]]; [done| |done].
  by intros ->.
Qed.

Lemma str_or_nonempty (x : option string) (d : string) :
  d ≠ "" -> str_or x d ≠ "".
Proof. intros Hd. by destruct x as [[|c s]|]. Qed.

(** X8. Whatever resolves a code, the city and the state of the resolved
    data are never empty: the lookup's gaps are filled with "Unknown" and
    the static table has no empty entry. *)
Theorem get_zip_data_city_state_nonempty
    (self : FleetLeadScorer) (zip_code : string) (zd : ZipData) :
  get_zip_data self zip_code = Some zd ->
  zd_city zd ≠ "" ∧ zd_state zd ≠ "".
Proof.
  assert (MOCK_ZIP_DATA !! zip_code = Some zd ->
          zd_city zd ≠ "" ∧ zd_state zd ≠ "") as Hmock.
  { unfold MOCK_ZIP_DATA. intros H%elem_of_list_to_map_2.
    table_cases H; by split. }
  unfold get_zip_data. cbv zeta.
  destruct (search self) as [by_zipcode|]; [|done].
  destruct (by_zipcode zip_code) as [|[result|]]; [done| |done].
  destruct (str_truthy (sz_zipcode result)); [|done].
  intros [= <-]. cbn [zd_city zd_state].
  split; repeat apply str_or_nonempty; done.
Qed.

(** ** More on the batch scorer *)

(** Sorting two sorted parts put together is sorting the whole. *)
Lemma sort_desc_app {A} (key : A -> Z) (l1 l2 : list A) :
  sort_desc key (l1 ++ l2)
  = sort_desc key (sort_desc key l1 ++ sort_desc key l2).
Proof.
  apply sorted_with_key_eq with (key := key);
    [apply sort_desc_sorted..|].
  intros v. rewrite !sort_desc_with_key. unfold with_key.
  rewrite !filter_app.
  pose proof (sort_desc_with_key key v l1) as H1.
  pose proof (sort_desc_with_key key v l2) as H2.
  unfold with_key in H1, H2. by rewrite H1, H2.
Qed.

Section batch_more.
Variable get_nearest_coast_distance : Q -> Q -> Q.




(** X11. A batch can be scored in two parts: sorting the two outputs put
    one after the other gives the output of the whole batch. *)
Theorem score_multiple_app self (zips1 zips2 : list string) :
  score_multiple get_nearest_coast_distance self (zips1 ++ zips2)
  = sort_desc total_severity_score
      (score_multiple get_nearest_coast_distance self zips1
       ++ score_multiple get_nearest_coast_distance self zips2).
Proof.
  rewrite !score_multiple_unfold, omap_app. apply sort_desc_app.
Qed.

End batch_more.

(** ** More on the primary and secondary risks *)

Section first_maximal_facts.
Context {A : Type} (key : A -> Z).

Lemma with_key_elem_of (v : Z) (x : A) (l : list A) :
  x ∈ with_key key v l ↔ key x = v ∧ x ∈ l.
Proof. unfold with_key. by rewrite list_elem_of_filter. Qed.

Lemma with_key_below (v : Z) (l : list A) :
  Forall (λ y, key y < v) l -> with_key key v l = [].
Proof.
  unfold with_key. induction 1 as [|y l Hy _ IH]; [done|].
  rewrite filter_cons_False by lia. done.
Qed.

(** The sorted list starts with the first of the largest elements. *)
Lemma first_maximal_sort_desc (x : A) (l : list A) :
  first_maximal key x l -> ∃ rest, sort_desc key l = x :: rest.
Proof.
  intros (l1 & l2 & -> & Hl1 & Hl2).
  pose proof (sort_desc_sorted key (l1 ++ x :: l2)) as Hs.
  pose proof (sort_desc_perm key (l1 ++ x :: l2)) as Hp.
  pose proof (sort_desc_with_key key (key x) (l1 ++ x :: l2)) as Hk.
  unfold with_key at 2 in Hk. rewrite filter_app in Hk.
  fold (with_key key (key x) l1) in Hk. rewrite (with_key_below _ _ Hl1) in Hk.
  rewrite filter_cons_True in Hk by done. cbn [app] in Hk.
  destruct (sort_desc key (l1 ++ x :: l2)) as [|r0 rest].
  { apply Permutation_nil_l in Hp. by destruct l1. }
  exists rest. f_equal.
  assert (key x ≤ key r0) as Hle1.
  { apply StronglySorted_cons in Hs as [Hr0 _].
    assert (x ∈ r0 :: rest) as Hx by (rewrite Hp; set_solver).
    apply elem_of_cons in Hx as [->|Hx]; [lia|].
    rewrite Forall_forall in Hr0. by apply Hr0. }
  assert (key r0 ≤ key x) as Hle2.
  { assert (r0 ∈ l1 ++ x :: l2) as Hr by (rewrite <- Hp; left).
    rewrite Forall_forall in Hl1, Hl2.
    apply elem_of_app in Hr as [Hr|Hr]; [apply Hl1 in Hr; lia|].
    apply elem_of_cons in Hr as [->|Hr]; [lia|]. by apply Hl2. }
  assert (key r0 = key x) as Heq by lia.
  rewrite <- Heq, with_key_head, Heq in Hk. congruence.
Qed.

(** Every non-empty list has a first largest element. *)
Lemma first_maximal_exists (x : A) (l : list A) :
  ∃ m, first_maximal key m (x :: l).
Proof.
  revert x. induction l as [|y l IH]; intros x.
  - exists x, [], []. by repeat split.
  - destruct (IH y) as (m & l1 & l2 & Heq & Hl1 & Hl2).
    destruct (decide (key m ≤ key x)) as [Hle|Hgt].
    + exists x, [], (y :: l). split; [done|]. split; [done|].
      rewrite Heq. apply Forall_app. split.
      * eapply Forall_impl; [exact Hl1|]. simpl. intros; lia.
      * constructor; [done|].
        eapply Forall_impl; [exact Hl2|]. simpl. intros; lia.
    + exists m, (x :: l1), l2. rewrite Heq. split; [done|].
      split; [|done]. constructor; [lia|done].
Qed.
End first_maximal_facts.

Lemma risk_labels_NoDup : NoDup ("Low Risk" :: risk_labels).
Proof.
  apply (bool_decide_unpack _). by vm_compute.
Qed.

(** The ranks that [get_primary_risk] reads. *)
Lemma get_primary_risk_ranks (f : RiskFactors) :
  ∃ r0 r1 r2 rest,
    sort_desc fst (risk_scores_of f) = r0 :: r1 :: r2 :: rest ∧
    get_primary_risk f
    = (if 0 <? r0.1 then r0.2 else "Low Risk",
       snd <$> filter (λ r, 5 ≤ r.1) [r1; r2]).
Proof.
  pose proof (risk_scores_length f) as Hlen.
  unfold get_primary_risk. cbv zeta.
  destruct (sort_desc fst (risk_scores_of f)) as [|r0 [|r1 [|r2 rest]]];
    try discriminate Hlen.
  by exists r0, r1, r2, rest.
Qed.

(** X12. The secondary risks are distinct risk labels, the primary risk is
    a risk label or "Low Risk", and the primary risk is never repeated
    among the secondary ones. *)
Theorem primary_and_secondary_distinct (f : RiskFactors) :
  let primary := (get_primary_risk f).1 in
  let secondary := (get_primary_risk f).2 in
  NoDup (primary :: secondary) ∧
  (primary = "Low Risk" ∨ primary ∈ risk_labels) ∧
  (∀ s, s ∈ secondary -> s ∈ risk_labels).
Proof.
  destruct (get_primary_risk_ranks f) as (r0 & r1 & r2 & rest & Hs & ->).
  cbn [fst snd].
  assert (snd <$> (r0 :: r1 :: r2 :: rest) ≡ₚ risk_labels) as Hp.
  { rewrite <- Hs, sort_desc_perm. done. }
  pose proof risk_labels_NoDup as Hnd. rewrite <- Hp in Hnd.
  cbn [fmap list_fmap] in Hp, Hnd.
  assert (∀ s, s ∈ snd <$> filter (λ r : Z * string, 5 ≤ r.1) [r1; r2] ->
               s ∈ [r1.2; r2.2]) as Hsub.
  { intros s (r & -> & Hr)%list_elem_of_fmap.
    apply list_elem_of_filter in Hr as [_ Hr].
    apply (list_elem_of_fmap_2 snd) in Hr. done. }
  assert (∀ s, s ∈ [r0.2; r1.2; r2.2] -> s ∈ risk_labels) as Hlab.
  { intros s Hin. rewrite <- Hp.
    rewrite !elem_of_cons, elem_of_nil in Hin. rewrite !elem_of_cons. tauto. }
  split; [|split].
  - apply NoDup_cons. split.
    + intros Hin%Hsub.
      apply NoDup_cons in Hnd as [Hlow Hnd].
      apply NoDup_cons in Hnd as [H0 Hnd].
      rewrite !elem_of_cons, elem_of_nil in Hin.
      repeat rewrite not_elem_of_cons in Hlow.
      repeat rewrite not_elem_of_cons in H0.
      destruct (0 <? r0.1); intuition congruence.
    + apply (NoDup_fmap_2_strong snd).
      * intros x y Hx%list_elem_of_filter Hy%list_elem_of_filter Hxy.
        apply NoDup_cons in Hnd as [_ Hnd].
        apply NoDup_cons in Hnd as [_ Hnd].
        apply NoDup_cons in Hnd as [H1 _].
        destruct Hx as [_ Hx], Hy as [_ Hy].
        apply elem_of_cons in Hx as [->|Hx%list_elem_of_singleton];
          apply elem_of_cons in Hy as [->|Hy%list_elem_of_singleton];
          subst; try done; exfalso; apply H1; rewrite ?Hxy, <- ?Hxy; left.
      * apply NoDup_filter.
        apply NoDup_cons in Hnd as [_ Hnd].
        apply NoDup_cons in Hnd as [_ Hnd].
        apply NoDup_cons in Hnd as [H1 _].
        apply NoDup_cons. split; [|apply NoDup_singleton].
        intros ->%list_elem_of_singleton. apply H1. left.
  - destruct (0 <? r0.1); [right|by left]. apply Hlab. left.
  - intros s Hin%Hsub. apply Hlab. by right.
Qed.

Lemma risk_scores_label (f : RiskFactors) (p : Z * string) :
  p ∈ risk_scores_of f -> p.2 ≠ "Low Risk".
Proof.
  unfold risk_scores_of. intros Hp. table_cases_keep Hp; discriminate.
Qed.

Lemma risk_scores_nonpositive (f : RiskFactors) :
  Forall (λ p : Z * string, p.1 ≤ 0) (risk_scores_of f)
  ↔ corrosion f + coastal f ≤ 0 ∧ urban_wear f ≤ 0 ∧ terrain f ≤ 0 ∧
    heat f ≤ 0 ∧ cold f ≤ 0 ∧ rural_road f ≤ 0.
Proof.
  unfold risk_scores_of. rewrite !Forall_cons, Forall_nil. cbn [fst]. tauto.
Qed.

(** X13. The primary risk is read off the first of the pairs with the
    largest score: its label when that score is positive, "Low Risk"
    otherwise. *)
Theorem primary_risk_is_first_maximal (f : RiskFactors) :
  ∃ p, first_maximal fst p (risk_scores_of f) ∧
       (get_primary_risk f).1 = (if decide (0 < p.1) then p.2 else "Low Risk").
Proof.
  destruct (first_maximal_exists fst
              (corrosion f + coastal f, "Corrosion")
              (tail (risk_scores_of f))) as [p Hp].
  change (first_maximal fst p (risk_scores_of f)) in Hp.
  exists p. split; [done|].
  destruct (first_maximal_sort_desc fst p _ Hp) as [rest' Hs'].
  destruct (get_primary_risk_ranks f) as (r0 & r1 & r2 & rest & Hs & ->).
  rewrite Hs in Hs'. injection Hs' as -> _. cbn [fst].
  destruct (Z.ltb_spec 0 p.1); case_decide; (done || lia).
Qed.

(** X14. The primary risk is "Low Risk" exactly when none of the six
    scores is positive, and then there is no secondary risk. *)
Theorem low_risk_iff_no_positive_score (f : RiskFactors) :
  ((get_primary_risk f).1 = "Low Risk" ↔
     corrosion f + coastal f ≤ 0 ∧ urban_wear f ≤ 0 ∧ terrain f ≤ 0 ∧
     heat f ≤ 0 ∧ cold f ≤ 0 ∧ rural_road f ≤ 0) ∧
  ((get_primary_risk f).1 = "Low Risk" -> (get_primary_risk f).2 = []).
Proof.
  rewrite <- risk_scores_nonpositive.
  destruct (get_primary_risk_ranks f) as (r0 & r1 & r2 & rest & Hs & ->).
  cbn [fst snd].
  pose proof (sort_desc_sorted fst (risk_scores_of f)) as Hsorted.
  pose proof (sort_desc_perm fst (risk_scores_of f)) as Hperm.
  rewrite Hs in Hsorted, Hperm.
  apply StronglySorted_cons in Hsorted as [Hr0 _].
  assert (r0.2 ≠ "Low Risk") as Hlab.
  { apply (risk_scores_label f). rewrite <- Hperm. left. }
  assert (Forall (λ p : Z * string, p.1 ≤ 0) (risk_scores_of f) ↔ r0.1 ≤ 0)
    as ->.
  { rewrite <- Hperm, Forall_cons. split; [tauto|]. intros H0.
    split; [done|]. eapply Forall_impl; [exact Hr0|].
    unfold key_desc. simpl. intros; lia. }
  apply Forall_cons in Hr0 as [H1 Hr0]. apply Forall_cons in Hr0 as [H2 _].
  unfold key_desc in H1, H2.
  destruct (Z.ltb_spec 0 r0.1) as [Hpos|Hneg].
  - split; [split; [done|lia]|done].
  - split; [split; [done|by intros _]|]. intros _.
    rewrite !filter_cons, filter_nil.
    rewrite !decide_False by lia. done.
Qed.

(** ** Bucket and primary risk of a scored record *)

(** The bucket, by the group that wins. *)
Lemma determine_risk_bucket_cases (f : RiskFactors) :
  (corrosion_wins f ∧ determine_risk_bucket f = "salt_belt") ∨
  (¬ corrosion_wins f ∧ terrain_wins f ∧
     determine_risk_bucket f = "transmission_cooker") ∨
  (¬ corrosion_wins f ∧ ¬ terrain_wins f ∧ urban_wins f ∧
     determine_risk_bucket f = "city_grinder") ∨
  (¬ corrosion_wins f ∧ ¬ terrain_wins f ∧ ¬ urban_wins f ∧ thermal_wins f ∧
     determine_risk_bucket f = "thermal_stress") ∨
  (¬ corrosion_wins f ∧ ¬ terrain_wins f ∧ ¬ urban_wins f ∧
     ¬ thermal_wins f ∧ determine_risk_bucket f = "general").
Proof.
  unfold determine_risk_bucket. cbv zeta. rewrite max4_max_score.
  unfold corrosion_wins, terrain_wins, urban_wins, thermal_wins,
    corrosion_total, urban_total, terrain_total, thermal_total.
  generalize (max_score f); intros m.
  destruct (wins_spec m (corrosion f + coastal f) 25); [tauto|].
  destruct (wins_spec m (terrain f) 15); [tauto|].
  destruct (wins_spec m (urban_wear f) 20); [tauto|].
  destruct (wins_spec m (heat f + cold f) 15); tauto.
Qed.

Lemma primary_of_first_maximal (f : RiskFactors) (p : Z * string) :
  first_maximal fst p (risk_scores_of f) -> 0 < p.1 ->
  (get_primary_risk f).1 = p.2.
Proof.
  intros [rest' Hs']%first_maximal_sort_desc Hpos.
  destruct (get_primary_risk_ranks f) as (r0 & r1 & r2 & rest & Hs & ->).
  rewrite Hs in Hs'. injection Hs' as -> _. cbn [fst].
  destruct (Z.ltb_spec 0 p.1); [done|lia].
Qed.

Lemma calculate_thermal_score_one_sided (lat : Q) :
  (calculate_thermal_score lat).1 = 0 ∨ (calculate_thermal_score lat).2 = 0.
Proof.
  destruct lat as [n d].
  unfold calculate_thermal_score, Qltb, HEAT_RISK_LATITUDE, COLD_RISK_LATITUDE.
  cbn [Qnum Qden]. cbv zeta.
  destruct (Z.ltb_spec (n * Z.pos 1) (30 * Z.pos d));
    destruct (Z.ltb_spec (n * Z.pos 1) (35 * Z.pos d));
    destruct (Z.ltb_spec (45 * Z.pos d) (n * Z.pos 1));
    destruct (Z.ltb_spec (42 * Z.pos d) (n * Z.pos 1));
    cbn [fst snd]; lia.
Qed.

Lemma calculate_density_score_exclusive_aux (pop_density : Q) :
  (calculate_density_score pop_density).1 = 0
  ∨ (calculate_density_score pop_density).2 = 0.
Proof.
  unfold calculate_density_score. cbv zeta.
  destruct (Qltb 10000 pop_density), (Qltb 5000 pop_density),
    (Qltb 2000 pop_density), (Qltb pop_density 500),
    (Qltb pop_density 100); cbn [fst snd]; auto.
Qed.

Lemma calculate_terrain_score_values_aux (zip_code state : string) :
  let t := calculate_terrain_score zip_code state in
  t = 0 ∨ t = 12 ∨ t = 20 ∨ t = 25.
Proof.
  pose proof (get_elevation_estimate_gap zip_code state) as He.
  cbv zeta in He. unfold calculate_terrain_score. cbv zeta.
  generalize dependent (get_elevation_estimate zip_code state).
  intros e He. destruct (negb _); [auto|].
  destruct (Z.ltb_spec 7000 e); [auto|].
  destruct (Z.ltb_spec 5000 e); [auto|].
  destruct (Z.ltb_spec 3000 e); [auto|].
  destruct (Z.ltb_spec 2000 e); [lia|auto].
Qed.

Section coherence.
Variable get_nearest_coast_distance : Q -> Q -> Q.

(** The shape of a risk profile built by the engine, as far as the
    comparison of its scores needs it. *)
Lemma score_zip_factor_shape self z r :
  score_zip get_nearest_coast_distance self z = Some r ->
  let f := risk_factors r in
  (corrosion f + coastal f ≤ 15 ∨ 30 ≤ corrosion f + coastal f) ∧
  0 ≤ rural_road f ≤ 10 ∧
  (terrain f ≤ 12 ∨ 20 ≤ terrain f) ∧
  0 ≤ heat f ∧ 0 ≤ cold f ∧ (heat f = 0 ∨ cold f = 0) ∧
  (heat f ≤ 12 ∨ 20 ≤ heat f) ∧ (cold f ≤ 12 ∨ 20 ≤ cold f).
Proof.
  intros (zd & _ & _ & _ & _ & -> & _)%score_zip_Some.
  pose proof (calculate_corrosion_score_values get_nearest_coast_distance
                (zd_state zd) (zd_lat zd) (zd_lon zd)) as H1.
  pose proof (calculate_density_score_values (zd_pop_density zd)) as H2.
  pose proof (calculate_terrain_score_values_aux z (zd_state zd)) as H3.
  pose proof (calculate_thermal_score_values (zd_lat zd)) as H4.
  pose proof (calculate_thermal_score_one_sided (zd_lat zd)) as H5.
  cbv zeta in *.
  cbn [corrosion coastal urban_wear rural_road terrain heat cold].
  split; [clear -H1; lia|]. split; [clear -H2; lia|].
  split; [clear -H3; lia|]. split; [clear -H4; lia|].
  split; [clear -H4; lia|]. split; [exact H5|].
  split; clear -H4; lia.
Qed.

(** X15. In a scored record the bucket and the primary risk agree:
    "salt_belt" comes with "Corrosion", "city_grinder" with
    "Stop-and-Go Wear", "thermal_stress" with "Heat Stress" or
    "Cold Start Risk", and "transmission_cooker" with "Terrain Stress"
    unless urban wear ties with terrain, when "Stop-and-Go Wear" is
    listed first. *)
Theorem risk_bucket_agrees_with_primary_risk self z r :
  score_zip get_nearest_coast_distance self z = Some r ->
  (risk_bucket r = "salt_belt" -> primary_risk r = "Corrosion") ∧
  (risk_bucket r = "city_grinder" -> primary_risk r = "Stop-and-Go Wear") ∧
  (risk_bucket r = "thermal_stress" ->
     primary_risk r = "Heat Stress" ∨ primary_risk r = "Cold Start Risk") ∧
  (risk_bucket r = "transmission_cooker" ->
     (urban_wear (risk_factors r) < terrain (risk_factors r)
      ∧ primary_risk r = "Terrain Stress") ∨
     (urban_wear (risk_factors r) = terrain (risk_factors r)
      ∧ primary_risk r = "Stop-and-Go Wear")).
Proof.
  intros Hr. pose proof (score_zip_factor_shape _ _ _ Hr) as Hv.
  apply score_zip_Some in Hr
    as (zd & _ & _ & _ & _ & _ & _ & -> & -> & _).
  cbv zeta in Hv. set (f := risk_factors r) in *. clearbody f. clear zd.
  destruct Hv as (Hc & Hru & Ht & Hh0 & Hc0 & Hhc & Hh & Hcd).
  assert (∀ p, first_maximal fst p (risk_scores_of f) -> 0 < p.1 ->
               (get_primary_risk f).1 = p.2) as Hprim
    by apply primary_of_first_maximal.
  pose proof (determine_risk_bucket_cases f) as Hcases.
  unfold corrosion_wins, terrain_wins, urban_wins, thermal_wins,
    corrosion_total, urban_total, terrain_total, thermal_total in Hcases.
  assert (corrosion f + coastal f ≤ max_score f ∧
          urban_wear f ≤ max_score f ∧ terrain f ≤ max_score f ∧
          heat f + cold f ≤ max_score f) as Hm.
  { clear. unfold max_score, corrosion_total, urban_total, terrain_total,
      thermal_total. lia. }
  generalize dependent (max_score f). intros m Hcases Hm.
  destruct Hcases
    as [(C & ->)|[(C & T & ->)|[(C & T & U & ->)|[(C & T & U & H & ->)
        |(C & T & U & H & ->)]]]];
    (split; [|split; [|split]]); intros Hb; try discriminate Hb.
  - (* corrosion wins *)
    apply (Hprim (corrosion f + coastal f, "Corrosion")); [|cbn [fst]; lia].
    exists [], (tail (risk_scores_of f)). split; [done|].
    split; [constructor|]. repeat constructor; cbn [fst]; lia.
  - (* terrain wins *)
    destruct (decide (urban_wear f = terrain f)) as [Heq|Hne].
    + right. split; [done|].
      apply (Hprim (urban_wear f, "Stop-and-Go Wear")); [|cbn [fst]; lia].
      exists [(corrosion f + coastal f, "Corrosion")],
        (tail (tail (risk_scores_of f))).
      split; [done|]. split; repeat constructor; cbn [fst]; lia.
    + left. split; [lia|].
      apply (Hprim (terrain f, "Terrain Stress")); [|cbn [fst]; lia].
      exists [(corrosion f + coastal f, "Corrosion");
              (urban_wear f, "Stop-and-Go Wear")],
        (tail (tail (tail (risk_scores_of f)))).
      split; [done|]. split; repeat constructor; cbn [fst]; lia.
  - (* urban wear wins *)
    apply (Hprim (urban_wear f, "Stop-and-Go Wear")); [|cbn [fst]; lia].
    exists [(corrosion f + coastal f, "Corrosion")],
      (tail (tail (risk_scores_of f))).
    split; [done|]. split; repeat constructor; cbn [fst]; lia.
  - (* thermal wins *)
    destruct (decide (cold f = 0)) as [Hz|Hnz].
    + left.
      apply (Hprim (heat f, "Heat Stress")); [|cbn [fst]; lia].
      exists [(corrosion f + coastal f, "Corrosion");
              (urban_wear f, "Stop-and-Go Wear");
              (terrain f, "Terrain Stress")],
        (tail (tail (tail (tail (risk_scores_of f))))).
      split; [done|]. split; repeat constructor; cbn [fst]; lia.
    + right.
      apply (Hprim (cold f, "Cold Start Risk")); [|cbn [fst]; lia].
      exists [(corrosion f + coastal f, "Corrosion");
              (urban_wear f, "Stop-and-Go Wear");
              (terrain f, "Terrain Stress");
              (heat f, "Heat Stress")],
        [(rural_road f, "Rural Road Wear")].
      split; [done|]. split; repeat constructor; cbn [fst]; lia.
Qed.

End coherence.

(** ** The summary report *)

Lemma filter_none {A} (P : A -> Prop) `{!∀ x, Decision (P x)} (l : list A) :
  Forall (λ x, ¬ P x) l -> filter P l = [].
Proof.
  induction 1 as [|x l Hx _ IH]; [done|].
  by rewrite filter_cons_False.
Qed.

(** In a list ordered by decreasing total whose priorities follow the
    thresholds, the hot leads come first, then the warm, then the cold. *)
Lemma priority_groups_in_order (l : list FleetLeadScore) :
  StronglySorted (key_desc total_severity_score) l ->
  Forall (λ r,
    (60 ≤ total_severity_score r ∧ lead_priority r = "hot") ∨
    (35 ≤ total_severity_score r < 60 ∧ lead_priority r = "warm") ∨
    (total_severity_score r < 35 ∧ lead_priority r = "cold")) l ->
  filter (λ r, lead_priority r = "hot") l
  ++ filter (λ r, lead_priority r = "warm") l
  ++ filter (λ r, lead_priority r = "cold") l = l.
Proof.
  induction 1 as [|a l Hl IH Ha]; [done|].
  intros [Hpa Hpl]%Forall_cons. specialize (IH Hpl).
  assert (∀ (bound : Z) (p : string),
            total_severity_score a < bound ->
            (p = "hot" ∧ bound ≤ 60 ∨ p = "warm" ∧ bound ≤ 35) ->
            filter (λ r, lead_priority r = p) l = []) as Hnone.
  { intros bound p Hlt Hp. apply filter_none.
    rewrite Forall_forall in Ha, Hpl. apply Forall_forall.
    intros y Hy. specialize (Ha y Hy). specialize (Hpl y Hy).
    unfold key_desc in Ha. intros Hyp. rewrite Hyp in Hpl.
    destruct Hp as [[-> ?]|[-> ?]];
      destruct Hpl as [[? Hq]|[[? Hq]|[? Hq]]];
      first [discriminate Hq | lia]. }
  destruct Hpa as [[Ht Hp]|[[Ht Hp]|[Ht Hp]]].
  - rewrite (filter_cons_True _ a) by done.
    rewrite !(filter_cons_False _ a) by (rewrite Hp; discriminate).
    cbn [app]. by rewrite IH.
  - rewrite (filter_cons_True (λ r, lead_priority r = "warm") a) by done.
    rewrite !(filter_cons_False _ a) by (rewrite Hp; discriminate).
    rewrite (Hnone 60 "hot") in IH |- * by (lia || (left; split; [done|lia])).
    cbn [app] in IH |- *. by rewrite IH.
  - rewrite (filter_cons_True (λ r, lead_priority r = "cold") a) by done.
    rewrite !(filter_cons_False _ a) by (rewrite Hp; discriminate).
    rewrite (Hnone 35 "hot") in IH |- * by (lia || (left; split; [done|lia])).
    rewrite (Hnone 35 "warm") in IH |- * by (lia || (right; split; [done|lia])).
    cbn [app] in IH |- *. by rewrite IH.
Qed.

Section summary_facts.
Variable get_nearest_coast_distance : Q -> Q -> Q.

(** X16. The summary loses and reorders nothing: its hot, warm and cold
    lists, one after the other, are the ranked batch output itself. *)
Theorem summary_leads_partition self (zip_codes : list string) :
  let results := score_multiple get_nearest_coast_distance self zip_codes in
  let '(hot, warm, cold) := summary_leads results in
  hot ++ warm ++ cold = results.
Proof.
  intros results. unfold summary_leads. cbv zeta.
  apply priority_groups_in_order.
  - unfold results. rewrite score_multiple_unfold. apply sort_desc_sorted.
  - apply Forall_forall. intros r Hr. unfold results in Hr.
    rewrite score_multiple_unfold, sort_desc_perm, list_elem_of_omap in Hr.
    destruct Hr as (zc & _ & Hr). by apply lead_priority_cases in Hr.
Qed.

End summary_facts.

Lemma count_bucket_foldl (acc : gmap string Z) (l : list FleetLeadScore)
    (b : string) :
  default 0 (foldl count_bucket acc l !! b)
  = default 0 (acc !! b)
    + Z.of_nat (length (filter (λ r, risk_bucket r = b) l))
  ∧ (is_Some (foldl count_bucket acc l !! b)
     ↔ is_Some (acc !! b) ∨ ∃ r, r ∈ l ∧ risk_bucket r = b).
Proof.
  revert acc. induction l as [|a l IH]; intros acc.
  - cbn [foldl]. rewrite filter_nil. cbn [length Z.of_nat].
    split; [by rewrite Z.add_0_r|].
    split; [by left|]. intros [H|(r & Hr & _)]; [done|].
    by apply elem_of_nil in Hr.
  - cbn [foldl]. destruct (IH (count_bucket acc a)) as [IH1 IH2].
    rewrite IH1, IH2. unfold count_bucket. rewrite filter_cons.
    destruct (decide (risk_bucket a = b)) as [Hab|Hab].
    + rewrite Hab, lookup_insert_eq. cbn [default length]. unfold id.
      split; [lia|].
      split; [intros _; right; exists a; split; [left|done]|].
      intros _. left. eauto.
    + rewrite lookup_insert_ne by done. split; [done|].
      split.
      * intros [H|(r & Hr & Hb)]; [by left|].
        right. exists r. split; [by right|done].
      * intros [H|(r & Hr & Hb)]; [by left|].
        apply elem_of_cons in Hr as [->|Hr]; [done|].
        right. by exists r.
Qed.

(** X17. The bucket breakdown has an entry exactly for the buckets that
    occur among the results, and each entry is the number of results in
    that bucket. *)
Theorem bucket_breakdown_counts (results : list FleetLeadScore) (b : string) :
  default 0 (bucket_breakdown results !! b)
  = Z.of_nat (length (filter (λ r, risk_bucket r = b) results))
  ∧ (is_Some (bucket_breakdown results !! b)
     ↔ ∃ r, r ∈ results ∧ risk_bucket r = b).
Proof.
  unfold bucket_breakdown.
  destruct (count_bucket_foldl ∅ results b) as [H1 H2].
  rewrite H1, H2, lookup_empty. split; [cbn; lia|].
  split; [|by right]. intros [[? [=]]|H]; done.
Qed.

(** ** How high the sum of the sub-scores gets *)

Lemma salt_belt_and_mountainous (state : string) :
  state ∈ SALT_BELT_STATES -> state ∈ MOUNTAINOUS_STATES -> state = "WV".
Proof.
  unfold SALT_BELT_STATES. intros Hs%elem_of_list_to_set Hm.
  repeat (apply elem_of_cons in Hs as [->|Hs];
          [first [ reflexivity
                 | exfalso; apply (bool_decide_pack _) in Hm;
                   vm_compute in Hm; exact Hm ]|]).
  by apply elem_of_nil in Hs.
Qed.

Lemma WV_not_coastal : "WV" ∉ COASTAL_STATES.
Proof.
  intros H. apply (bool_decide_pack _) in H. vm_compute in H. exact H.
Qed.

Section sum_facts.
Variable get_nearest_coast_distance : Q -> Q -> Q.

Lemma calculate_corrosion_score_states (state : string) (lat lon : Q) :
  let p := calculate_corrosion_score get_nearest_coast_distance state lat lon in
  (p.1 ≠ 0 -> state ∈ SALT_BELT_STATES) ∧
  (p.2 ≠ 0 -> state ∈ COASTAL_STATES).
Proof.
  unfold calculate_corrosion_score. cbv zeta. cbn [fst snd].
  split; case_bool_decide; done.
Qed.

Lemma calculate_terrain_score_state (zip_code state : string) :
  calculate_terrain_score zip_code state ≠ 0 -> state ∈ MOUNTAINOUS_STATES.
Proof.
  unfold calculate_terrain_score. case_bool_decide; cbn [negb]; done.
Qed.

(** The fields of a scored record that are copied from the lookup. *)
Lemma score_zip_copied_fields self z r :
  score_zip get_nearest_coast_distance self z = Some r ->
  ∃ zd, get_zip_data self z = Some zd ∧
    city r = zd_city zd ∧ state r = zd_state zd ∧
    latitude r = zd_lat zd ∧ longitude r = zd_lon zd ∧
    population_density r = zd_pop_density zd.
Proof.
  unfold score_zip.
  destruct (get_zip_data self z) as [zd|]; [|done].
  cbv zeta.
  destruct (calculate_corrosion_score _ _ _ _), (calculate_density_score _),
    (calculate_thermal_score _), (get_primary_risk _).
  intros [= <-]. by exists zd.
Qed.

(** X18. Before the cap, the seven sub-scores of a scored record add up to
    at most 105, and they pass 100 only in West Virginia, the one state
    that is both salt-belt and mountainous. *)
Theorem sub_score_sum_at_most_105 self z r :
  score_zip get_nearest_coast_distance self z = Some r ->
  let f := risk_factors r in
  let sum := corrosion f + coastal f + urban_wear f + rural_road f
             + terrain f + heat f + cold f in
  sum ≤ 105 ∧ (100 < sum -> state r = "WV").
Proof.
  intros Hr.
  destruct (score_zip_copied_fields _ _ _ Hr) as (zd' & Hzd' & _ & Hst & _).
  apply score_zip_Some in Hr as (zd & Hzd & _ & _ & _ & -> & _).
  rewrite Hzd in Hzd'. injection Hzd' as <-. rewrite Hst. clear Hst Hzd.
  pose proof (calculate_corrosion_score_values get_nearest_coast_distance
                (zd_state zd) (zd_lat zd) (zd_lon zd)) as [Hc Hco].
  pose proof (calculate_corrosion_score_states
                (zd_state zd) (zd_lat zd) (zd_lon zd)) as [Hsalt Hcoast].
  pose proof (calculate_density_score_values (zd_pop_density zd)) as [Hu Hru].
  pose proof (calculate_density_score_exclusive_aux (zd_pop_density zd)) as Hur.
  pose proof (calculate_terrain_score_values_aux z (zd_state zd)) as Ht.
  pose proof (calculate_terrain_score_state z (zd_state zd)) as Hmount.
  pose proof (calculate_thermal_score_values (zd_lat zd)) as [Hh Hcd].
  pose proof (calculate_thermal_score_one_sided (zd_lat zd)) as Hhc.
  cbv zeta in *.
  cbn [corrosion coastal urban_wear rural_road terrain heat cold].
  set (c := (calculate_corrosion_score _ _ _ _).1) in *.
  set (co := (calculate_corrosion_score _ _ _ _).2) in *.
  set (u := (calculate_density_score _).1) in *.
  set (ru := (calculate_density_score _).2) in *.
  set (t := calculate_terrain_score _ _) in *.
  set (h := (calculate_thermal_score _).1) in *.
  set (cd := (calculate_thermal_score _).2) in *.
  assert (u + ru ≤ 30) as Hdens by (clear -Hu Hru Hur; lia).
  assert (0 ≤ u + ru) as Hdens0 by (clear -Hu Hru; lia).
  assert (0 ≤ h + cd ≤ 20) as Htherm by (clear -Hh Hcd Hhc; lia).
  assert (c + co + t ≤ 55 ∧ (50 < c + co + t -> zd_state zd = "WV")) as Hstate.
  { destruct (decide (c = 0)) as [Hc0|Hc0]; [clear -Hc0 Hco Ht; lia|].
    destruct (decide (t = 0)) as [Ht0|Ht0]; [clear -Hc Hco Ht0; lia|].
    assert (zd_state zd = "WV") as HWV
      by (apply salt_belt_and_mountainous; auto).
    assert (co = 0) as Hco0.
    { destruct (decide (co = 0)) as [|Hne]; [done|].
      apply Hcoast in Hne. rewrite HWV in Hne. by apply WV_not_coastal in Hne. }
    split; [clear -Hc Hco0 Ht; lia|done]. }
  destruct Hstate as [Hle HWV]. clearbody c co u ru t h cd.
  split; [lia|]. intros Hsum. apply HWV. lia.
Qed.

End sum_facts.

(** The cap does bite: a lookup that places a dense, hot town of West
    Virginia on a high-elevation prefix gives sub-scores adding up to 105. *)
Example cap_is_reached :
  total_severity_score
  <$> score_zip on_the_coast
        (mkFleetLeadScorer (Some (λ _,
           Returned (Some (mkSimpleZipcode (Some "80401") (Some "Highland")
                             None (Some "WV") (Some 29%Q) (Some (-80)%Q)
                             (Some 12000%Q))))))
        "80401"
  = Some 100.
Proof. vm_compute. reflexivity. Qed.

(** ** The further properties at concrete inputs *)

Lemma calculate_density_score_monotone_4500_12000 :
  (4500 <= 12000)%Q ∧
  (calculate_density_score 4500).1 ≤ (calculate_density_score 12000).1 ∧
  (calculate_density_score 12000).2 ≤ (calculate_density_score 4500).2.
Proof.
  split; [unfold Qle; cbn; lia|].
  apply (calculate_density_score_monotone 4500 12000).
  unfold Qle; cbn; lia.
Defined.

Lemma coastal_score_by_reference_points_miami :
  Geo.get_nearest_coast_distance (λ _ _ _ _, 10%Q) 25.7617 (-80.1918)
    = Geo.Miles 10 ∧
  ((calculate_corrosion_score (λ _ _, 10%Q) "FL" 25.7617 (-80.1918)).2 = 15
   ↔ "FL" ∈ COASTAL_STATES ∧
     ∃ p, p ∈ Geo.COASTAL_REFERENCE_POINTS ∧ (10 < 20)%Q).
Proof.
  split; [vm_compute; reflexivity|].
  apply (coastal_score_by_reference_points (λ _ _ _ _, 10%Q) (λ _ _, 10%Q)
           "FL" 25.7617 (-80.1918)).
  vm_compute; reflexivity.
Defined.

Lemma get_zip_data_falls_back_raising :
  search_misses (mkFleetLeadScorer (Some (λ _, Raised))) "60601" ∧
  get_zip_data (mkFleetLeadScorer (Some (λ _, Raised))) "60601"
  = MOCK_ZIP_DATA !! "60601".
Proof.
  split; [exact I|].
  apply (get_zip_data_falls_back
           (mkFleetLeadScorer (Some (λ _, Raised))) "60601").
  exact I.
Defined.

Lemma get_zip_data_city_state_nonempty_chicago :
  get_zip_data fallback_scorer "60601"
  = Some (mkZipData "Chicago" "IL" 41.8819 (-87.6278) 12000) ∧
  "Chicago" ≠ "" ∧ "IL" ≠ "".
Proof.
  split; [vm_compute; reflexivity|].
  apply (get_zip_data_city_state_nonempty fallback_scorer "60601"
           (mkZipData "Chicago" "IL" 41.8819 (-87.6278) 12000)).
  vm_compute; reflexivity.
Defined.

Lemma risk_bucket_agrees_with_primary_risk_miami :
  score_zip on_the_coast fallback_scorer "33101" = Some miami_score ∧
  (risk_bucket miami_score = "city_grinder" ->
   primary_risk miami_score = "Stop-and-Go Wear").
Proof.
  split; [vm_compute; reflexivity|].
  destruct (risk_bucket_agrees_with_primary_risk on_the_coast
              fallback_scorer "33101" miami_score) as (_ & Hcity & _);
    [vm_compute; reflexivity|exact Hcity].
Defined.

Lemma sub_score_sum_at_most_105_miami :
  score_zip on_the_coast fallback_scorer "33101" = Some miami_score ∧
  (0 + 15 + 30 + 0 + 0 + 20 + 0 ≤ 105 ∧
   (100 < 0 + 15 + 30 + 0 + 0 + 20 + 0 -> state miami_score = "WV")).
Proof.
  split; [vm_compute; reflexivity|].
  apply (sub_score_sum_at_most_105 on_the_coast fallback_scorer "33101"
           miami_score).
  vm_compute; reflexivity.
Defined.
